(** * Simple Tinder Scraper ES: a shallow embedding of the extraction,
      verification, persistence and session-driver code.

    Sources embedded here:
    - [src/scraper_simple.py]   (procedural path: [scrape_profile],
      [save_profiles], [verificar_nombre_con_ocr])
    - [src/src/ocr_processor.py] ([OCRProcessor])
    - [src/src/data_extractor.py] ([DataExtractor._extract_image_urls])
    - [src/src/utils.py]        ([ProfileSaver], [ScrapingStats])
    - [src/src/scraper.py]      ([TinderScraper])

    Conventions.  A Python [str] is a list of Unicode code points, so that
    [len], [strip] and the regular-expression character classes mean what
    they mean in Python.  Dictionary keys are only ever compared, and are
    kept as [string]s.  A Python [dict] is a [gmap], a Python [set] a
    [gset].  Calls into the browser, the OCR engine, the clock and the
    random generator are inputs of the model: each function takes the
    answers the outside world gives it. *)

From Stdlib Require Import ZArith List String Ascii QArith Lia.
From stdpp Require Import base list gmap sets strings pretty.

Open Scope Z_scope.
Open Scope list_scope.

(* ===================================================================== *)
(** * Python values *)
(* ===================================================================== *)

Module Py.

(** A Python string: its code points. *)
Definition pystr : Type := list Z.

(** An ASCII literal of the source, as code points. *)
Definition lit (s : string) : pystr :=
  List.map (fun a => Z.of_N (N_of_ascii a)) (list_ascii_of_string s).

(** The sentinel ["NA"]. *)
Definition NA : pystr := Eval cbv in lit "NA".

(** The separator [" | "]. *)
Definition SEP : pystr := Eval cbv in lit " | ".

(** [sep.join(parts)]. *)
Fixpoint join (sep : pystr) (parts : list pystr) : pystr :=
  match parts with
  | [] => []
  | [p] => p
  | p :: rest => p ++ sep ++ join sep rest
  end.

(** [c.isspace()]: the code points [str.strip()] removes. *)
Definition isspace (c : Z) : bool :=
  ((9 <=? c) && (c <=? 13)) || ((28 <=? c) && (c <=? 32))
  || (c =? 133) || (c =? 160) || (c =? 5760)
  || ((8192 <=? c) && (c <=? 8202))
  || (c =? 8232) || (c =? 8233) || (c =? 8239) || (c =? 8287)
  || (c =? 12288).

Fixpoint lstrip (s : pystr) : pystr :=
  match s with
  | c :: rest => if isspace c then lstrip rest else s
  | [] => []
  end.

(** [s.strip()]. *)
Definition strip (s : pystr) : pystr := rev (lstrip (rev (lstrip s))).

(** What a list of a profile can hold. *)
Inductive atom : Type :=
| ANone
| ABool (b : bool)
| AInt (n : Z)
| AStr (s : pystr).

(** What a field of a profile can hold: a scalar, an object with a
    [.text] attribute (a WebElement), or a list. *)
Inductive value : Type :=
| VAtom (a : atom)
| VElem (text : pystr)
| VList (items : list atom).

Definition VNone : value := VAtom ANone.
Definition VStr (s : pystr) : value := VAtom (AStr s).

#[global] Instance atom_eq_dec : EqDecision atom.
Proof. solve_decision. Defined.

#[global] Instance value_eq_dec : EqDecision value.
Proof. solve_decision. Defined.

(** [str(item)]. *)
Definition str (a : atom) : pystr :=
  match a with
  | ANone => lit "None"
  | ABool true => lit "True"
  | ABool false => lit "False"
  | AInt n => lit (pretty n)
  | AStr s => s
  end.

(** [isinstance(item, str)]. *)
Definition is_str (a : atom) : bool :=
  match a with AStr _ => true | _ => false end.

(** [isinstance(value, list)]. *)
Definition is_list (v : value) : bool :=
  match v with VList _ => true | _ => false end.

(** [bool(a)]. *)
Definition atom_truthy (a : atom) : bool :=
  match a with
  | ANone => false
  | ABool b => b
  | AInt n => negb (n =? 0)
  | AStr s => match s with [] => false | _ => true end
  end.

(** [bool(v)]: an object without [__bool__] or [__len__] is true. *)
Definition truthy (v : value) : bool :=
  match v with
  | VAtom a => atom_truthy a
  | VElem _ => true
  | VList l => match l with [] => false | _ => true end
  end.

(** The exceptions the modelled code can meet. *)
Inductive exn : Type :=
| KeyError
| TypeError
| OSError
| WebDriverException.

(** The outcome of a call: a value, or an exception that propagates. *)
Inductive outcome (A : Type) : Type :=
| Returns (a : A)
| Raises (e : exn).
Arguments Returns {A} a.
Arguments Raises {A} e.

#[global] Instance outcome_ret : MRet outcome := fun A a => Returns a.

(** Sequencing: an exception skips the rest. *)
#[global] Instance outcome_bind : MBind outcome := fun A B k m =>
  match m with
  | Returns a => k a
  | Raises e => Raises e
  end.

#[global] Instance exn_eq_dec : EqDecision exn.
Proof. solve_decision. Defined.

#[global] Instance outcome_eq_dec {A} `{EqDecision A} : EqDecision (outcome A).
Proof. solve_decision. Defined.

(** [l.count(x)]. *)
Definition occurrences {A} `{EqDecision A} (x : A) (l : list A) : nat :=
  length (List.filter (fun y => bool_decide (y = x)) l).

(** [len(v)]. *)
Definition len (v : value) : outcome nat :=
  match v with
  | VAtom (AStr s) => Returns (length s)
  | VList l => Returns (length l)
  | _ => Raises TypeError
  end.

(** A profile record: the [dict] built by the extraction code. *)
Abbreviation profile := (gmap string value).

End Py.

Import Py.


(* ===================================================================== *)
(** * Classification of the collected texts ([scrape_profile]) *)
(* ===================================================================== *)

Module Classify.

(** The fixed category order of the two loops of [scrape_profile]. *)
Definition CATEGORIES : list string :=
  ["horoscopo"; "educacion"; "hijos"; "vacunacion"; "personalidad";
   "comunicacion"; "amor"]%string.

(** [config['categories']]: a vocabulary list per category name. *)
Abbreviation vocabularies := (gmap string (list pystr)).

(** The inner [for category in [...]] loop: the first category whose
    vocabulary holds [text]; [categories[category]] raises [KeyError]
    when the configuration lacks the key. *)
Fixpoint first_match (categories : vocabularies) (text : pystr)
    (order : list string) : outcome (option string) :=
  match order with
  | [] => Returns None
  | category :: rest =>
      match categories !! category with
      | None => Raises KeyError
      | Some vocabulary =>
          if bool_decide (text ∈ vocabulary) then Returns (Some category)
          else first_match categories text rest
      end
  end.

(** The texts whose inner loop ends on [k]: on category [c] for
    [Some c], without a match for [None]. *)
Definition sent_to (categories : vocabularies) (k : option string)
    (texts : list pystr) : list pystr :=
  List.filter
    (fun t => bool_decide (first_match categories t CATEGORIES = Returns k)) texts.

(** [{category: [] for category in [...]}]. *)
Definition classified_init : gmap string (list pystr) :=
  list_to_map ((fun c => (c, [])) <$> CATEGORIES).

(** The outer [for text in extracted_texts] loop, on the pair
    ([classified_data], [otros]). *)
Fixpoint classify_loop (categories : vocabularies) (texts : list pystr)
    (classified_data : gmap string (list pystr)) (otros : list pystr)
    : outcome (gmap string (list pystr) * list pystr) :=
  match texts with
  | [] => Returns (classified_data, otros)
  | text :: rest =>
      found ← first_match categories text CATEGORIES;
      match found with
      | Some category =>
          classify_loop categories rest
            (alter (fun l => l ++ [text]) category classified_data) otros
      | None =>
          classify_loop categories rest classified_data (otros ++ [text])
      end
  end.

(** "Convertir listas vacías a NA". *)
Definition empty_to_NA (l : list pystr) : value :=
  match l with
  | [] => VStr NA
  | _ => VList (AStr <$> l)
  end.

(** The strings of a list value ([set.update(valores)]). *)
Definition strings_of (v : value) : gset pystr :=
  match v with
  | VList items =>
      list_to_set (omap (fun a => match a with AStr s => Some s | _ => None end) items)
  | _ => ∅
  end.

(** [contenido_ya_recogido]: the list values of [classified_data], the
    scalar fields other than ["NA"], and the interests. *)
Definition contenido_ya_recogido (classified_data : gmap string value)
    (scalars interests : list pystr) : gset pystr :=
  ⋃ (strings_of <$> (map_to_list classified_data).*2)
  ∪ list_to_set (List.filter (fun valor => negb (bool_decide (valor = NA))) scalars)
  ∪ list_to_set interests.

(** The part of a profile that the classification produces. *)
Record classification := {
  classified_data : gmap string value;
  otros : list pystr
}.

(** Lines 532-557 and 713-725 of [scrape_profile]: classify the texts,
    replace empty lists, then drop from [otros] what is already held
    elsewhere.  [scalars] are the sixteen fields of line 719. *)
Definition classify (categories : vocabularies)
    (extracted_texts scalars interests : list pystr)
    : outcome classification :=
  '(lists, otros0) ← classify_loop categories extracted_texts classified_init [];
  let data := empty_to_NA <$> lists in
  let seen := contenido_ya_recogido data scalars interests in
  Returns {| classified_data := data;
             otros := List.filter (fun item => negb (bool_decide (item ∈ seen))) otros0 |}.

End Classify.

(* ===================================================================== *)
(** * The files the scraper reads, writes and deletes *)
(* ===================================================================== *)

Module Disk.

(** The paths present on disk, and those [os.remove] fails on. *)
Record filesystem := {
  present : gset string;
  undeletable : gset string
}.

(** [os.path.exists(path)]. *)
Definition exists_ (fs : filesystem) (path : string) : bool :=
  bool_decide (path ∈ present fs).

(** [os.remove(path)]. *)
Definition remove (fs : filesystem) (path : string) : outcome filesystem :=
  if bool_decide (path ∈ present fs) && negb (bool_decide (path ∈ undeletable fs))
  then Returns {| present := present fs ∖ {[path]}; undeletable := undeletable fs |}
  else Raises OSError.

End Disk.

(* ===================================================================== *)
(** * OCR verification ([OCRProcessor], [verificar_nombre_con_ocr]) *)
(* ===================================================================== *)

Module OCR.

(** The character class [[A-Za-zÀ-ÿ0-9\.]] of [_has_meaningful_text]:
    the ranges A-Z, a-z, U+00C0-U+00FF, 0-9, and the period. *)
Definition meaningful_pattern (c : Z) : bool :=
  ((65 <=? c) && (c <=? 90)) || ((97 <=? c) && (c <=? 122))
  || ((192 <=? c) && (c <=? 255)) || ((48 <=? c) && (c <=? 57))
  || (c =? 46).

(** [bool(re.search(meaningful_pattern, text))]. *)
Definition _has_meaningful_text (text : pystr) : bool :=
  existsb meaningful_pattern text.

(** [OCRProcessor._cleanup_image]: remove the file when it exists; a
    failing [os.remove] is logged and swallowed. *)
Definition _cleanup_image (fs : Disk.filesystem) (image_path : string)
    : Disk.filesystem :=
  if Disk.exists_ fs image_path then
    match Disk.remove fs image_path with
    | Returns fs' => fs'
    | Raises _ => fs
    end
  else fs.

Section Verify.

(** A decoded screenshot, and the template matcher run on it
    ([detect_verification_icon], which answers "Yes", "No" or "NA"). *)
Variable image : Type.
Variable detect_verification_icon : image -> pystr.

(** What one OCR pass meets: [cv2.imread] gives [None], the engine
    raises, or the screenshot decodes and the engine returns a text. *)
Inductive reading : Type :=
| NoImage
| EngineError
| Read (img : image) (text : pystr).

(** [OCRProcessor.extract_text_from_image]: fails soft. *)
Definition extract_text_from_image (r : reading) : bool * option image :=
  match r with
  | NoImage => (false, None)
  | EngineError => (false, None)
  | Read img text => (_has_meaningful_text text, Some img)
  end.

(** The first component of what [extract_text_from_image] returns. *)
Definition has_text (r : reading) : bool := fst (extract_text_from_image r).


(** The result of a verification: the returned pair, the disk it leaves,
    and how many OCR passes it ran. *)
Record verdict := {
  verified : bool;
  verification_status : pystr;
  disk : Disk.filesystem;
  ocr_passes : nat
}.

(** The status after the badge check of one attempt: resolved only
    while it is still "NA" and an image was decoded. *)
Definition resolve_status (status : pystr) (img : option image) : pystr :=
  if bool_decide (status = NA) then
    match img with
    | Some i => detect_verification_icon i
    | None => status
    end
  else status.

(** The [for attempt in range(max_attempts)] loop of
    [OCRProcessor.verify_profile_with_ocr] and what follows it.
    [clean] is [config.get("output.clean_screenshots_after_verification", True)]. *)
Fixpoint verify_loop (readings : nat -> reading) (clean : bool)
    (image_path : string) (attempts : list nat) (status : pystr)
    (fs : Disk.filesystem) (passes : nat) : verdict :=
  match attempts with
  | [] =>
      {| verified := false; verification_status := status;
         disk := _cleanup_image fs image_path; ocr_passes := passes |}
  | attempt :: rest =>
      let '(has_text, img) := extract_text_from_image (readings attempt) in
      let status' := resolve_status status img in
      if has_text then
        {| verified := true; verification_status := status';
           disk := if clean then _cleanup_image fs image_path else fs;
           ocr_passes := S passes |}
      else verify_loop readings clean image_path rest status' fs (S passes)
  end.

(** [OCRProcessor.verify_profile_with_ocr].  [clean_flag] is the
    configured value, absent when the key is. *)
Definition verify_profile_with_ocr (clean_flag : option bool)
    (readings : nat -> reading) (fs : Disk.filesystem)
    (image_path : string) (max_attempts : Z) : verdict :=
  verify_loop readings (default true clean_flag) image_path
    (seq 0 (Z.to_nat max_attempts)) NA fs 0.

(** [extract_name_and_age_from_image] of the procedural path: the same
    test, but an engine failure propagates. *)
Definition extract_name_and_age_from_image (r : reading)
    : outcome (bool * option image) :=
  match r with
  | NoImage => Returns (false, None)
  | EngineError => Raises OSError
  | Read img text => Returns (existsb meaningful_pattern text, Some img)
  end.

(** The guarded removal both exits of [verificar_nombre_con_ocr] share:
    [config['output']['clean_screenshots_after_verification']] is read
    first and raises when the key is missing. *)
Definition remove_if_configured (clean_flag : option bool)
    (fs : Disk.filesystem) (ruta_imagen : string) : outcome Disk.filesystem :=
  match clean_flag with
  | None => Raises KeyError
  | Some true => Returns (_cleanup_image fs ruta_imagen)
  | Some false => Returns fs
  end.

(** [verificar_nombre_con_ocr] of [scraper_simple.py]. *)
Fixpoint verificar_loop (readings : nat -> reading) (clean_flag : option bool)
    (ruta_imagen : string) (intentos : list nat) (is_verified : pystr)
    (fs : Disk.filesystem) (passes : nat) : outcome verdict :=
  match intentos with
  | [] =>
      fs' ← remove_if_configured clean_flag fs ruta_imagen;
      Returns {| verified := false; verification_status := is_verified;
                 disk := fs'; ocr_passes := passes |}
  | intento :: rest =>
      match extract_name_and_age_from_image (readings intento) with
      | Raises e => Raises e
      | Returns (has_text, imagen) =>
          let is_verified' := resolve_status is_verified imagen in
          if has_text then
            fs' ← remove_if_configured clean_flag fs ruta_imagen;
            Returns {| verified := true; verification_status := is_verified';
                       disk := fs'; ocr_passes := S passes |}
          else verificar_loop readings clean_flag ruta_imagen rest is_verified' fs (S passes)
      end
  end.

Definition verificar_nombre_con_ocr (clean_flag : option bool)
    (readings : nat -> reading) (fs : Disk.filesystem)
    (ruta_imagen : string) (max_intentos : Z) : outcome verdict :=
  verificar_loop readings clean_flag ruta_imagen
    (seq 0 (Z.to_nat max_intentos)) NA fs 0.

End Verify.

Arguments NoImage {image}.
Arguments EngineError {image}.
Arguments Read {image} img text.
Arguments has_text {image} r.

End OCR.

(* ===================================================================== *)
(** * Image-URL discovery ([_extract_image_urls], [scrape_profile]) *)
(* ===================================================================== *)

Module Images.

(** [hay.startswith(needle)]. *)
Fixpoint starts_with (needle hay : pystr) : bool :=
  match needle, hay with
  | [], _ => true
  | _ :: _, [] => false
  | n :: ns, h :: hs => (n =? h) && starts_with ns hs
  end.

(** [needle in hay] on strings. *)
Fixpoint contains (needle hay : pystr) : bool :=
  starts_with needle hay
  || match hay with
     | [] => false
     | _ :: hs => contains needle hs
     end.

(** The filter of both scanners: [".webp" in url and len(url) > 250]. *)
Definition is_profile_image (url : pystr) : bool :=
  contains (lit ".webp") url && (250 <? Z.of_nat (length url)).

(** What one scan of the page meets: [find_elements] (or reading a
    style) raises, or the elements give the URLs their styles match
    ([match.group(1)], in document order). *)
Inductive scan : Type :=
| ScanFails
| Scanned (matches : list pystr).

(** One turn of the loop as the page answers it: the scan, and whether
    the key press that scrolls succeeds. *)
Record scroll_step := {
  scanned : scan;
  scroll_ok : bool
}.

(** [new_urls]: the set of the matches that pass the filter. *)
Definition new_urls (matches : list pystr) : gset pystr :=
  list_to_set (List.filter is_profile_image matches).

(** The update both loops share: add what is new and reset the counter,
    or count one more scan without change. *)
Definition accumulate (nuevas urls_found : gset pystr) (scrolls_without_changes : Z)
    : gset pystr * Z :=
  let new_urls_in_iteration := nuevas ∖ urls_found in
  if bool_decide (new_urls_in_iteration ≠ ∅)
  then (urls_found ∪ new_urls_in_iteration, 0)
  else (urls_found, scrolls_without_changes + 1).





(** Both loops as one, for the proofs about them: [always] says whether
    the page is scrolled after every scan ([scrape_profile]) or only
    while the counter is below the bound ([_extract_image_urls]). *)
Fixpoint discovery_loop (always : bool) (fuel : nat) (page : nat -> scroll_step)
    (bound : Z) (i : nat) (found : gset pystr) (unchanged : Z)
    : option (gset pystr * nat) :=
  match fuel with
  | O => None
  | S fuel' =>
      if unchanged <? bound then
        match scanned (page i) with
        | ScanFails => Some (found, S i)
        | Scanned matches =>
            let '(found', count') := accumulate (new_urls matches) found unchanged in
            if (always || (count' <? bound)) && negb (scroll_ok (page i))
            then Some (found', S i)
            else discovery_loop always fuel' page bound (S i) found' count'
        end
      else Some (found, i)
  end.

End Images.

(* ===================================================================== *)
(** * Persistence ([ProfileSaver], [save_profiles]) *)
(* ===================================================================== *)

Module Saver.

(** What the output file holds: text that is not JSON, a JSON document
    that is not an array, or an array of records. *)
Inductive json_file : Type :=
| Unparsable
| NotAList
| Records (stored : list profile).

(** The output file: absent or with a content; [writable] is whether
    opening it for writing succeeds. *)
Record store := {
  content : option json_file;
  writable : bool
}.

(** The fields both paths name as "should be pipe-separated strings". *)
Definition list_fields : list string :=
  ["intereses"; "otros"; "horoscopo"; "educacion"; "hijos";
   "vacunacion"; "personalidad"; "comunicacion"; "amor"]%string.

(** [" | ".join([str(item) for item in value])], or "NA" for []. *)
Definition join_or_NA (items : list atom) : value :=
  match items with
  | [] => VStr NA
  | _ => VStr (join SEP (str <$> items))
  end.

(** [value if value is not None else "NA"]. *)
Definition none_to_NA (v : value) : value :=
  match v with
  | VAtom ANone => VStr NA
  | _ => v
  end.

(** The first loop of [ProfileSaver._clean_profiles], per value. *)
Definition clean_value (v : value) : value :=
  match v with
  | VElem text => VStr (strip text)
  | VList items => join_or_NA items
  | VAtom _ => none_to_NA v
  end.

(** One turn of the loop of [_format_list_fields]. *)
Definition format_field (p : profile) (field : string) : profile :=
  match p !! field with
  | Some (VList items) => <[field := join_or_NA items]> p
  | _ => p
  end.

(** [ProfileSaver._format_list_fields]. *)
Definition _format_list_fields (p : profile) : profile :=
  foldl format_field p list_fields.

(** The body of the loop of [_clean_profiles]: one profile. *)
Definition clean_profile (p : profile) : profile :=
  _format_list_fields (clean_value <$> p).

(** [ProfileSaver._clean_profiles]. *)
Definition _clean_profiles (profiles : list profile) : list profile :=
  clean_profile <$> profiles.

(** [ProfileSaver._load_existing_profiles]: every failure is an empty
    list. *)
Definition _load_existing_profiles (st : store) : list profile :=
  match content st with
  | Some (Records stored) => stored
  | _ => []
  end.


(** The "Saved n profiles. Total: t" line of a successful save. *)
Record report := {
  saved : nat;
  total : nat
}.

(** [ProfileSaver.save_profiles]: the returned flag, the file it leaves,
    and the counts it logs on success. *)
Definition save_profiles (new_profiles : list profile) (st : store)
    : bool * store * option report :=
  let cleaned_profiles := _clean_profiles new_profiles in
  let existing_profiles := _load_existing_profiles st ++ cleaned_profiles in
  if writable st then
    (true,
     {| content := Some (Records existing_profiles); writable := writable st |},
     Some {| saved := length cleaned_profiles; total := length existing_profiles |})
  else (false, st, None).

(** The first loop of [save_profiles] in [scraper_simple.py], per value:
    a list of strings is joined as it is, any other list through [str];
    everything that is neither an element nor a list is kept. *)
Definition simple_clean_value (v : value) : value :=
  match v with
  | VElem text => VStr (strip text)
  | VList items =>
      match items with
      | [] => VStr NA
      | _ =>
          if forallb is_str items
          then VStr (join SEP
                 (omap (fun a => match a with AStr s => Some s | _ => None end) items))
          else VStr (join SEP (str <$> items))
      end
  | VAtom a => VAtom a
  end.

(** [" | ".join(value)] without [str]: a [TypeError] on an item that
    is not a string. *)
Definition join_strings (items : list atom) : outcome pystr :=
  if forallb is_str items
  then Returns (join SEP
         (omap (fun a => match a with AStr s => Some s | _ => None end) items))
  else Raises TypeError.

(** One turn of its [fields_to_join] loop. *)
Definition simple_join_field (acc : outcome profile) (field : string)
    : outcome profile :=
  p ← acc;
  match p !! field with
  | Some (VList items) =>
      match items with
      | [] => Returns (<[field := VStr NA]> p)
      | _ => joined ← join_strings items; Returns (<[field := VStr joined]> p)
      end
  | _ => Returns p
  end.

(** The cleaning of one profile by [save_profiles] of [scraper_simple.py]. *)
Definition simple_clean_profile (p : profile) : outcome profile :=
  foldl simple_join_field (Returns (simple_clean_value <$> p)) list_fields.




End Saver.

(* ===================================================================== *)
(** * The session driver ([TinderScraper]) *)
(* ===================================================================== *)

Module Driver.

(** [x < y] on the numbers the clock, the configuration and the random
    generator give. *)
Definition Qltb (x y : Q) : bool := negb (Qle_bool y x).

(** What the driver does to the outside world, in order: a call of the
    extraction pipeline, a key press sent to the page (right to accept,
    left to reject), a key press that failed, a navigation to the
    recommendations page. *)
Inductive event : Type :=
| Extraction
| SwipeRight
| SwipeLeft
| KeyFailed
| Recommendations.

#[global] Instance event_eq_dec : EqDecision event.
Proof. solve_decision. Defined.

(** [ScrapingStats] of [utils.py], the counters. *)
Record ScrapingStats := {
  profiles_scraped : nat;
  likes : nat;
  nopes : nat;
  errors : nat
}.

Definition add_profile (st : ScrapingStats) : ScrapingStats :=
  {| profiles_scraped := S (profiles_scraped st); likes := likes st;
     nopes := nopes st; errors := errors st |}.

Definition add_like (st : ScrapingStats) : ScrapingStats :=
  {| profiles_scraped := profiles_scraped st; likes := S (likes st);
     nopes := nopes st; errors := errors st |}.

Definition add_nope (st : ScrapingStats) : ScrapingStats :=
  {| profiles_scraped := profiles_scraped st; likes := likes st;
     nopes := S (nopes st); errors := errors st |}.

Definition add_error (st : ScrapingStats) : ScrapingStats :=
  {| profiles_scraped := profiles_scraped st; likes := likes st;
     nopes := nopes st; errors := S (errors st) |}.

(** The scraping parameters read in [TinderScraper.__init__]. *)
Record parameters := {
  num_profiles : Z;
  like_probability : Q;
  save_interval : Z;
  timeout_minutes : Q
}.

(** The mutable state of a [TinderScraper], with the output file and
    the trace of what it did. *)
Record scraper := {
  profiles_buffer : list profile;
  last_profile_time : Q;
  last_save : nat;
  stats : ScrapingStats;
  file : Saver.store;
  trace : list event
}.

Definition log (e : event) (s : scraper) : scraper :=
  {| profiles_buffer := profiles_buffer s;
     last_profile_time := last_profile_time s;
     last_save := last_save s; stats := stats s; file := file s;
     trace := trace s ++ [e] |}.

Definition with_stats (f : ScrapingStats -> ScrapingStats) (s : scraper) : scraper :=
  {| profiles_buffer := profiles_buffer s;
     last_profile_time := last_profile_time s;
     last_save := last_save s; stats := f (stats s); file := file s;
     trace := trace s |}.

Definition with_time (t : Q) (s : scraper) : scraper :=
  {| profiles_buffer := profiles_buffer s; last_profile_time := t;
     last_save := last_save s; stats := stats s; file := file s;
     trace := trace s |}.

Definition with_buffer (b : list profile) (s : scraper) : scraper :=
  {| profiles_buffer := b; last_profile_time := last_profile_time s;
     last_save := last_save s; stats := stats s; file := file s;
     trace := trace s |}.

Definition with_saved (n : nat) (f : Saver.store) (s : scraper) : scraper :=
  {| profiles_buffer := profiles_buffer s;
     last_profile_time := last_profile_time s;
     last_save := n; stats := stats s; file := f; trace := trace s |}.

(** The state [__init__] builds at time [now]. *)
Definition init (now : Q) (output : Saver.store) : scraper :=
  {| profiles_buffer := []; last_profile_time := now; last_save := 0;
     stats := {| profiles_scraped := 0; likes := 0; nopes := 0; errors := 0 |};
     file := output; trace := [] |}.

(** What the outside world answers during one turn of the [run] loop:
    the clock at each reading, whether [driver.get] succeeds, what the
    extraction pipeline returns ([None] also when it raised), the
    integer [k] of the draw [random.random() = k / 2**53], and whether
    the key press succeeds. *)
Record turn := {
  clock_check : Q;
  clock_recovered : Q;
  navigation_ok : bool;
  extraction : option profile;
  clock_added : Q;
  draw : N;
  key_ok : bool
}.

(** [random.random()] for the draw [k]. *)
Definition random (k : N) : Q := Z.of_N k # (2 ^ 53).

(** [BrowserManager.navigate_to_recommendations]: the navigation is
    issued, and [driver.get] may raise. *)
Definition navigate_to_recommendations (ok : bool) (s : scraper)
    : scraper * option exn :=
  (log Recommendations s, if ok then None else Some WebDriverException).

(** [TinderScraper._validate_profile]. *)
Definition _validate_profile (profile_data : profile) : outcome bool :=
  let images := default (VList []) (profile_data !! "imagenes"%string) in
  if negb (truthy images) then Returns false
  else if bool_decide (images = VStr NA) then Returns false
  else
    n ← len images;
    if (n =? 0)%nat then Returns false
    else
      let nombre := default VNone (profile_data !! "nombre"%string) in
      if negb (truthy nombre) || bool_decide (nombre = VStr NA)
      then Returns false
      else Returns true.

(** [TinderScraper._perform_swipe_action]: the action is drawn, the key
    sent; a failure to send it counts as an error. *)
Definition _perform_swipe_action (cfg : parameters) (w : turn) (s : scraper) : scraper :=
  let right := Qltb (random (draw w)) (like_probability cfg) in
  if key_ok w then
    if right then with_stats add_like (log SwipeRight s)
    else with_stats add_nope (log SwipeLeft s)
  else with_stats add_error (log KeyFailed s).

(** [TinderScraper._save_if_needed]. *)
Definition _save_if_needed (cfg : parameters) (s : scraper) : scraper :=
  let profiles_to_save :=
    Z.of_nat (length (profiles_buffer s)) - Z.of_nat (last_save s) in
  if save_interval cfg <=? profiles_to_save then
    let profiles_for_save := drop (last_save s) (profiles_buffer s) in
    match Saver.save_profiles profiles_for_save (file s) with
    | (true, f, _) => with_saved (length (profiles_buffer s)) f s
    | (false, _, _) => s
    end
  else s.

(** [TinderScraper._save_remaining_profiles]. *)
Definition _save_remaining_profiles (s : scraper) : scraper :=
  match drop (last_save s) (profiles_buffer s) with
  | [] => s
  | remaining_profiles =>
      match Saver.save_profiles remaining_profiles (file s) with
      | (true, f, _) => with_saved (last_save s) f s
      | (false, _, _) => s
      end
  end.

(** The end of a turn that did not [continue]: swipe, then save. *)
Definition swipe_and_save (cfg : parameters) (w : turn) (s : scraper) : scraper :=
  _save_if_needed cfg (_perform_swipe_action cfg w s).

(** One turn of the [for] loop of [run]: the state it leaves, and the
    exception that escaped it, if any.  Printing the statistics and the
    delay that close a turn change nothing of this state. *)
Definition run_iteration (cfg : parameters) (w : turn) (s : scraper)
    : scraper * option exn :=
  if Qltb (timeout_minutes cfg * 60) (clock_check w - last_profile_time s) then
    match navigate_to_recommendations (navigation_ok w) s with
    | (s', Some e) => (s', Some e)
    | (s', None) => (with_time (clock_recovered w) s', None)
    end
  else
    let s := log Extraction s in
    match extraction w with
    | Some profile_data =>
        if bool_decide (profile_data = ∅) then
          (swipe_and_save cfg w (with_stats add_error s), None)
        else
          match _validate_profile profile_data with
          | Raises e => (s, Some e)
          | Returns true =>
              let s := with_buffer (profiles_buffer s ++ [profile_data]) s in
              let s := with_stats add_profile s in
              let s := with_time (clock_added w) s in
              (swipe_and_save cfg w s, None)
          | Returns false =>
              navigate_to_recommendations (navigation_ok w) s
          end
    | None => (swipe_and_save cfg w (with_stats add_error s), None)
    end.

(** The [for i in range(1, num_profiles + 1)] loop, stopped by the
    first exception. *)
Fixpoint run_loop (cfg : parameters) (world : nat -> turn) (turns : list nat)
    (s : scraper) : scraper * option exn :=
  match turns with
  | [] => (s, None)
  | i :: rest =>
      match run_iteration cfg (world i) s with
      | (s', Some e) => (s', Some e)
      | (s', None) => run_loop cfg world rest s'
      end
  end.

(** [TinderScraper.run]: the loop, then the final save, which the
    handler of an escaped exception runs as well.  A user interrupt is
    handled like any other escaped exception and is not an input of its
    own here. *)
Definition run (cfg : parameters) (world : nat -> turn) (s : scraper) : scraper :=
  _save_remaining_profiles
    (fst (run_loop cfg world (seq 1 (Z.to_nat (num_profiles cfg))) s)).

(** How many turns a trace without accepts shows to have ended: by a
    reject, a recovery navigation, or a failed key press. *)
Definition ended (t : list event) : nat :=
  (occurrences SwipeLeft t + occurrences Recommendations t
   + occurrences KeyFailed t)%nat.

End Driver.

(* ===================================================================== *)
(** * Configuration ([ConfigManager], [apply_cli_overrides]) *)
(* ===================================================================== *)

Module Config.

(** A value of a JSON document as [json.load] builds it.  [JNonFinite]
    stands for the floats [nan], [inf] and [-inf], which [json.load]
    and [float()] accept. *)
#[warnings="-register-all"]
Inductive json : Type :=
| JNull
| JBool (b : bool)
| JInt (n : Z)
| JFloat (q : Q)
| JNonFinite
| JStr (s : pystr)
| JList (items : list json)
| JDict (entries : gmap string json).

(** [s.split('.')]: the part before the first dot, and the parts after
    it; there is always a first part. *)
Fixpoint split_dots (s : string) : string * list string :=
  match s with
  | EmptyString => (EmptyString, [])
  | String c rest =>
      let '(first, others) := split_dots rest in
      if Ascii.eqb c "."%char then (EmptyString, first :: others)
      else (String c first, others)
  end.

(** [value = value[key]] for each key in turn: [KeyError] on a missing
    key, [TypeError] on anything that is not a dictionary. *)
Fixpoint lookup_path (value : json) (keys : list string) : outcome json :=
  match keys with
  | [] => Returns value
  | key :: rest =>
      match value with
      | JDict entries =>
          match entries !! key with
          | Some v => lookup_path v rest
          | None => Raises KeyError
          end
      | _ => Raises TypeError
      end
  end.

(** [ConfigManager.get]: both exceptions give the default. *)
Definition get (config : json) (key_path : string) (default : json) : json :=
  let '(key, rest) := split_dots key_path in
  match lookup_path config (key :: rest) with
  | Returns v => v
  | Raises _ => default
  end.

(** The walk of [get] along keys already split. *)
Definition get_keys (config : json) (keys : list string) (default : json) : json :=
  match lookup_path config keys with
  | Returns v => v
  | Raises _ => default
  end.

(** The keys of a dotted path. *)
Definition keys_of (key_path : string) : list string :=
  let '(key, rest) := split_dots key_path in key :: rest.

(** [ConfigManager.update] along the keys [key :: rest]: a missing
    section is created on the way, and the walk raises [TypeError] at
    anything that is not a dictionary (before it has changed a
    thing). *)
Fixpoint store_path (target : json) (key : string) (rest : list string)
    (value : json) : outcome json :=
  match target with
  | JDict entries =>
      match rest with
      | [] => Returns (JDict (<[key := value]> entries))
      | next :: rest' =>
          child ← store_path (default (JDict ∅) (entries !! key)) next rest' value;
          Returns (JDict (<[key := child]> entries))
      end
  | _ => Raises TypeError
  end.

Definition update (config : json) (key_path : string) (value : json)
    : outcome json :=
  let '(key, rest) := split_dots key_path in
  store_path config key rest value.

(** The assignment at the end of [_validate_numeric]
    ([target = target[key]] for each key but the last, then
    [target[keys[-1]] = default_value]): nothing is created. *)
Fixpoint assign_path (target : json) (key : string) (rest : list string)
    (value : json) : outcome json :=
  match target with
  | JDict entries =>
      match rest with
      | [] => Returns (JDict (<[key := value]> entries))
      | next :: rest' =>
          match entries !! key with
          | Some child =>
              child' ← assign_path child next rest' value;
              Returns (JDict (<[key := child']> entries))
          | None => Raises KeyError
          end
      end
  | _ => Raises TypeError
  end.

(** [0.151], [0.75] and the like. *)
Definition thousandths (n : Z) : Q := n # 1000.

(** [ConfigManager._get_default_config]. *)
Definition default_config : json :=
  JDict {[
    "scraping"%string := JDict {[
      "num_profiles"%string := JInt 10;
      "like_probability"%string := JFloat (thousandths 151);
      "save_interval"%string := JInt 10;
      "max_retries"%string := JInt 3;
      "scroll_attempts"%string := JInt 3;
      "timeout_minutes"%string := JInt 1 ]};
    "browser"%string := JDict {[
      "headless"%string := JBool false;
      "window_size"%string := JStr (lit "maximized");
      "disable_automation_flags"%string := JBool true;
      "chrome_type"%string := JStr (lit "auto") ]};
    "ocr"%string := JDict {[
      "max_attempts"%string := JInt 3;
      "verification_threshold"%string := JFloat (thousandths 750);
      "tesseract_config"%string := JStr (lit "--oem 3 --psm 6") ]};
    "output"%string := JDict {[
      "filename"%string := JStr (lit "profiles.json");
      "save_screenshots"%string := JBool true;
      "clean_screenshots_after_verification"%string := JBool true;
      "output_directory"%string := JStr (lit "output") ]};
    "delays"%string := JDict {[
      "after_action"%string := JList [JFloat (thousandths 200); JFloat (thousandths 400)];
      "page_load"%string := JInt 10;
      "popup_close"%string := JFloat (thousandths 200);
      "screenshot_wait"%string := JFloat (thousandths 400) ]};
    "paths"%string := JDict {[
      "screenshots_dir"%string := JStr (lit "screenshots");
      "templates_dir"%string := JStr (lit "templates");
      "verification_template"%string := JStr (lit "templates/tick_icon.png") ]}
  ]}.

(** [isinstance(value, (int, float)) and min_val <= value <= max_val];
    a boolean is an [int] in Python. *)
Definition in_range (min_val max_val : Q) (value : json) : bool :=
  match value with
  | JBool b =>
      Qle_bool min_val (if b then 1 else 0) && Qle_bool (if b then 1 else 0) max_val
  | JInt n => Qle_bool min_val (inject_Z n) && Qle_bool (inject_Z n) max_val
  | JFloat q => Qle_bool min_val q && Qle_bool q max_val
  | _ => false
  end.

(** [ConfigManager._validate_numeric]: a value out of range, or not a
    number, is replaced by the default; a path that cannot be walked is
    only warned about. *)
Definition _validate_numeric (config : json) (key_path : string)
    (min_val max_val : Q) : json :=
  let '(key, rest) := split_dots key_path in
  match lookup_path config (key :: rest) with
  | Raises _ => config
  | Returns value =>
      if in_range min_val max_val value then config
      else
        match lookup_path default_config (key :: rest) with
        | Raises _ => config
        | Returns default_value =>
            match assign_path config key rest default_value with
            | Returns config' => config'
            | Raises _ => config
            end
        end
  end.

Definition required_sections : list string :=
  ["scraping"; "browser"; "ocr"; "output"; "delays"; "paths"]%string.

(** The first loop of [_validate_config]: a missing section is taken
    from the defaults. *)
Definition fill_section (entries : gmap string json) (section : string)
    : outcome (gmap string json) :=
  match entries !! section with
  | Some _ => Returns entries
  | None =>
      default_section ← lookup_path default_config [section];
      Returns (<[section := default_section]> entries)
  end.

(** [os.makedirs(directory, exist_ok=True)]: [TypeError] on anything
    that is not a string; whether a string names a directory that is
    there or can be made is the answer [creatable] of the file
    system, and [OSError] stands for what is raised when it cannot. *)
Definition makedirs (creatable : pystr -> bool) (directory : json)
    : outcome unit :=
  match directory with
  | JStr d => if creatable d then Returns tt else Raises OSError
  | _ => Raises TypeError
  end.

(** [ConfigManager._ensure_directories]: the three settings are looked
    up first, the directories made after. *)
Definition _ensure_directories (creatable : pystr -> bool) (config : json)
    : outcome unit :=
  output_directory ← lookup_path config ["output"; "output_directory"]%string;
  screenshots_dir ← lookup_path config ["paths"; "screenshots_dir"]%string;
  templates_dir ← lookup_path config ["paths"; "templates_dir"]%string;
  _ ← makedirs creatable output_directory;
  _ ← makedirs creatable screenshots_dir;
  makedirs creatable templates_dir.

(** The first loop of [_validate_config] over all sections. *)
Definition fill_sections (entries : gmap string json) (sections : list string)
    : outcome (gmap string json) :=
  foldl (fun acc section => e ← acc; fill_section e section)
        (Returns entries) sections.

(** The four calls of [_validate_numeric] in [_validate_config]. *)
Definition validate_numerics (config : json) : json :=
  let config := _validate_numeric config "scraping.num_profiles" 1 1000 in
  let config := _validate_numeric config "scraping.like_probability" 0 1 in
  let config := _validate_numeric config "scraping.save_interval" 1 100 in
  _validate_numeric config "ocr.verification_threshold" 0 1.

(** [ConfigManager._validate_config], on the document loaded. *)
Definition _validate_config (creatable : pystr -> bool) (config : json)
    : outcome json :=
  match config with
  | JDict entries =>
      filled ← fill_sections entries required_sections;
      let config := validate_numerics (JDict filled) in
      _ ← _ensure_directories creatable config;
      Returns config
  | _ => Raises TypeError
  end.

(** [dict.get(key, default)], which is what [config.get] is on the
    dictionary that [get_full_config] returns. *)
Definition dict_get (config : gmap string json) (key : string) (default : json)
    : json :=
  match config !! key with
  | Some value => value
  | None => default
  end.

(** The four settings [TinderScraper.__init__] reads, through whatever
    [config.get] is. *)
Definition scraping_settings (config_get : string -> json -> json)
    : json * json * json * json :=
  (config_get "scraping.num_profiles"%string (JInt 10),
   config_get "scraping.like_probability"%string (JFloat (thousandths 151)),
   config_get "scraping.save_interval"%string (JInt 10),
   config_get "scraping.timeout_minutes"%string (JInt 1)).

(** Whether a key has a dot in it. *)
Definition has_dot (key : string) : bool :=
  match split_dots key with
  | (_, []) => false
  | _ => true
  end.

(** The key lists part ways: at some position both have a key, and the
    two differ, all keys before being the same. *)
Fixpoint diverge (keys1 keys2 : list string) : bool :=
  match keys1, keys2 with
  | k1 :: rest1, k2 :: rest2 =>
      if bool_decide (k1 = k2) then diverge rest1 rest2 else true
  | _, _ => false
  end.

(** No top-level key of the document has a dot in it. *)
Definition dot_free (config : json) : Prop :=
  match config with
  | JDict entries => forall key, has_dot key = true -> entries !! key = None
  | _ => False
  end.

End Config.

(* ===================================================================== *)
(** * Command-line overrides ([main.py]) *)
(* ===================================================================== *)

Module Cli.

Import Config.

(** What [type=float] of [argparse] gives: [float()] also accepts
    "nan" and "inf". *)
Inductive pyfloat : Type :=
| Finite (q : Q)
| NonFinite.

Definition json_of_float (f : pyfloat) : json :=
  match f with
  | Finite q => JFloat q
  | NonFinite => JNonFinite
  end.

(** The parsed arguments that [apply_cli_overrides] reads. *)
Record arguments := {
  profiles : option Z;
  like_rate : option pyfloat;
  save_interval : option Z;
  output : option pystr;
  output_dir : option pystr;
  headless : bool;
  no_screenshots : bool
}.

(** How [apply_cli_overrides] ends: it returns with the configuration
    updated, calls [sys.exit], or lets an exception of [update] out. *)
Inductive applied : Type :=
| Applied (config : json)
| Exit (code : Z)
| Fails (e : exn).

Definition and_then (r : applied) (k : json -> applied) : applied :=
  match r with
  | Applied config => k config
  | other => other
  end.

(** [config_manager.update(key_path, value)]. *)
Definition override (config : json) (key_path : string) (value : json) : applied :=
  match update config key_path value with
  | Returns config' => Applied config'
  | Raises e => Fails e
  end.

(** [0.0 <= args.like_rate <= 1.0]. *)
Definition rate_ok (f : pyfloat) : bool :=
  match f with
  | Finite q => Qle_bool 0 q && Qle_bool q 1
  | NonFinite => false
  end.

(** [if args.output:] and the like: a string given and not empty. *)
Definition given (s : option pystr) : option pystr :=
  match s with
  | Some (c :: rest) => Some (c :: rest)
  | _ => None
  end.

(** [apply_cli_overrides]. *)
Definition apply_cli_overrides (config : json) (args : arguments) : applied :=
  and_then
    match profiles args with
    | Some n =>
        if n <=? 0 then Exit 1
        else override config "scraping.num_profiles" (JInt n)
    | None => Applied config
    end (fun config =>
  and_then
    match like_rate args with
    | Some f =>
        if rate_ok f then override config "scraping.like_probability" (json_of_float f)
        else Exit 1
    | None => Applied config
    end (fun config =>
  and_then
    match save_interval args with
    | Some n =>
        if n <=? 0 then Exit 1
        else override config "scraping.save_interval" (JInt n)
    | None => Applied config
    end (fun config =>
  and_then
    match given (output args) with
    | Some name => override config "output.filename" (JStr name)
    | None => Applied config
    end (fun config =>
  and_then
    match given (output_dir args) with
    | Some directory => override config "output.output_directory" (JStr directory)
    | None => Applied config
    end (fun config =>
  and_then
    (if headless args then override config "browser.headless" (JBool true)
     else Applied config) (fun config =>
  if no_screenshots args then override config "output.save_screenshots" (JBool false)
  else Applied config)))))).

End Cli.

(* ===================================================================== *)
(** * Invariants of a session *)
(* ===================================================================== *)

Module Session.

Import Driver.


(** The counters say what the buffer and the trace show. *)
Definition counted (s : scraper) : Prop :=
  profiles_scraped (stats s) = length (profiles_buffer s) /\
  likes (stats s) = occurrences SwipeRight (trace s) /\
  nopes (stats s) = occurrences SwipeLeft (trace s) /\
  (length (profiles_buffer s) <= occurrences Extraction (trace s))%nat.

End Session.

(* ===================================================================== *)
(** * Concrete inputs used below *)
(* ===================================================================== *)

Module Examples.

Import Classify.

(** The vocabulary [{horoscopo: ["Aries"]}], the other six categories
    being configured with empty lists. *)
Definition aries_only : vocabularies :=
  <["horoscopo"%string := [lit "Aries"]]> ((fun _ => []) <$> classified_init).

Definition Aries : pystr := Eval cbv in lit "Aries".
Definition Le_gusta_correr : pystr := Eval cbv in lit "Le gusta correr".

(** A screenshot on a disk that lets it be deleted. *)
Definition shot : string := "screenshots/Ana_20240101_120000.png".

Definition disk_with_shot : Disk.filesystem :=
  {| Disk.present := {[shot]}; Disk.undeletable := ∅ |}.

(** Decoded screenshots are not looked into here: the matcher answers
    "No" on each. *)
Definition no_badge (_ : unit) : pystr := lit "No".

(** Every OCR pass decodes the screenshot and reads an empty text. *)
Definition blank_passes (_ : nat) : OCR.reading unit := OCR.Read tt [].

(** Every OCR pass reads "Ana". *)
Definition ana_passes (_ : nat) : OCR.reading unit := OCR.Read tt (lit "Ana").

(** A URL that passes the filter of the scanners. *)
Definition photo_url : pystr :=
  lit "https://images-ssl.gotinder.com/u/" ++ repeat 97 250 ++ lit ".webp".




(** The session of the scenario: three profiles, like probability 0. *)
Definition three_never_like : Driver.parameters :=
  {| Driver.num_profiles := 3; Driver.like_probability := 0;
     Driver.save_interval := 10; Driver.timeout_minutes := 1 |}.

(** An extracted record with a name and every field but the photos. *)
Definition no_photo_profile : profile :=
  {[ "nombre"%string := VStr (lit "Ana"); "edad"%string := VStr (lit "29");
     "bio"%string := VStr (lit "Hola"); "imagenes"%string := VList [] ]}.

(** An extracted record with a name and one photo. *)
Definition ana_profile : profile :=
  {[ "nombre"%string := VStr (lit "Ana");
     "imagenes"%string := VList [AStr photo_url] ]}.

(** A turn at clock 0 in which the pipeline returns [extracted], the
    draw is 0 and everything else succeeds. *)
Definition calm_turn (extracted : option profile) : Driver.turn :=
  {| Driver.clock_check := 0; Driver.clock_recovered := 0;
     Driver.navigation_ok := true; Driver.extraction := extracted;
     Driver.clock_added := 0; Driver.draw := 0; Driver.key_ok := true |}.

(** The output file before the first save: absent, writable. *)
Definition no_file : Saver.store :=
  {| Saver.content := None; Saver.writable := true |}.

(** The default configuration after
    [update("scraping.num_profiles", 50)]. *)
Definition with_fifty : Config.json :=
  match Config.update Config.default_config "scraping.num_profiles"
          (Config.JInt 50) with
  | Returns config => config
  | Raises _ => Config.JNull
  end.

(** [--profiles 50 --like-rate 0.2 --headless]. *)
Definition fifty_headless : Cli.arguments :=
  {| Cli.profiles := Some 50;
     Cli.like_rate := Some (Cli.Finite (1 # 5));
     Cli.save_interval := None;
     Cli.output := None;
     Cli.output_dir := None;
     Cli.headless := true;
     Cli.no_screenshots := false |}.

(** The default configuration after those overrides. *)
Definition overridden : Config.json :=
  match Cli.apply_cli_overrides Config.default_config fifty_headless with
  | Cli.Applied config => config
  | _ => Config.JNull
  end.

(** [--profiles 0]. *)
Definition no_profiles : Cli.arguments :=
  {| Cli.profiles := Some 0;
     Cli.like_rate := None;
     Cli.save_interval := None;
     Cli.output := None;
     Cli.output_dir := None;
     Cli.headless := false;
     Cli.no_screenshots := false |}.

End Examples.

(* ===================================================================== *)
(** * Facts about the classification *)
(* ===================================================================== *)

Section ClassifyFacts.

Import Classify.

Variable categories : vocabularies.

(** The configuration names a vocabulary for each of the seven
    categories, so that no lookup raises. *)
Hypothesis configured : forall k, k ∈ CATEGORIES -> is_Some (categories !! k).

Lemma first_match_returns text order :
  order ⊆ CATEGORIES ->
  exists r, first_match categories text order = Returns r.
Proof.
  induction order as [|k order IH]; intros Hsub; simpl; [eauto|].
  destruct (configured k) as [v Hv]; [set_solver|]. rewrite Hv.
  case_bool_decide; [eauto|]. apply IH. set_solver.
Qed.

(** A category found is the first one of the order that holds the text. *)
Lemma first_match_Some text order k :
  first_match categories text order = Returns (Some k) <->
  exists pre post vocabulary,
    order = pre ++ k :: post /\ categories !! k = Some vocabulary /\
    text ∈ vocabulary /\
    forall k', k' ∈ pre -> exists v', categories !! k' = Some v' /\ text ∉ v'.
Proof.
  revert k. induction order as [|c order IH]; intros k; simpl.
  - split; [discriminate|]. intros (pre & post & v & E & _). by destruct pre.
  - destruct (categories !! c) as [v|] eqn:Hc.
    + case_bool_decide as Hin.
      * split.
        -- intros [= <-]. exists [], order, v. repeat split; try done.
           intros k' Hk'. by apply elem_of_nil in Hk'.
        -- intros (pre & post & v' & E & Hk & Hv' & Hpre).
           destruct pre as [|c' pre]; simpl in E; injection E as <- ->; [done|].
           destruct (Hpre c) as (w & Hw & Hnot); [left|].
           rewrite Hc in Hw. injection Hw as <-. done.
      * rewrite IH. split.
        -- intros (pre & post & v' & -> & Hk & Hv' & Hpre).
           exists (c :: pre), post, v'. repeat split; try done.
           intros k' [->|Hk']%elem_of_cons; eauto.
        -- intros (pre & post & v' & E & Hk & Hv' & Hpre).
           destruct pre as [|c' pre]; simpl in E; injection E as <- ->.
           ++ rewrite Hc in Hk. injection Hk as <-. done.
           ++ exists pre, post, v'. repeat split; try done.
              intros k' Hk'. apply Hpre. by right.
    + split; [discriminate|].
      intros (pre & post & v' & E & Hk & Hv' & Hpre).
      destruct pre as [|c' pre]; simpl in E; injection E as <- ->.
      * congruence.
      * destruct (Hpre c) as (w & Hw & _); [left|]. congruence.
Qed.

(** No category is found exactly when no vocabulary of the order holds
    the text. *)
Lemma first_match_None text order :
  first_match categories text order = Returns None ->
  forall k vocabulary, k ∈ order -> categories !! k = Some vocabulary ->
    text ∉ vocabulary.
Proof.
  induction order as [|c order IH]; simpl; intros H k v Hk Hv.
  - by apply elem_of_nil in Hk.
  - destruct (categories !! c) as [w|] eqn:Hc; [|discriminate].
    case_bool_decide as Hin; [discriminate|].
    apply elem_of_cons in Hk as [->|Hk]; [congruence|eauto].
Qed.

Lemma first_match_miss text order :
  order ⊆ CATEGORIES ->
  (forall k vocabulary, k ∈ order -> categories !! k = Some vocabulary ->
     text ∉ vocabulary) ->
  first_match categories text order = Returns None.
Proof.
  induction order as [|c order IH]; simpl; intros Hsub H; [done|].
  destruct (configured c) as [v Hv]; [set_solver|]. rewrite Hv.
  case_bool_decide as Hin.
  - exfalso. eapply H; [left| |]; done.
  - apply IH; [set_solver|]. intros k w Hk. apply H. by right.
Qed.

Lemma classify_loop_cons t texts data rest :
  classify_loop categories (t :: texts) data rest =
  (found ← first_match categories t CATEGORIES;
   match found with
   | Some category =>
       classify_loop categories texts
         (alter (fun l => l ++ [t]) category data) rest
   | None => classify_loop categories texts data (rest ++ [t])
   end).
Proof. reflexivity. Qed.

Lemma sent_to_cons k t texts :
  sent_to categories k (t :: texts) =
  if bool_decide (first_match categories t CATEGORIES = Returns k)
  then t :: sent_to categories k texts else sent_to categories k texts.
Proof. reflexivity. Qed.

(** The loop, in closed form: every list grows by the texts whose first
    match it is, [otros] by the unmatched ones, in encounter order. *)
Lemma classify_loop_closed texts data rest :
  exists data',
    classify_loop categories texts data rest
      = Returns (data', rest ++ sent_to categories None texts) /\
    forall k, data' !! k
      = (fun l => l ++ sent_to categories (Some k) texts) <$> (data !! k).
Proof.
  revert data rest. induction texts as [|t texts IH]; intros data rest.
  - exists data. cbn. rewrite app_nil_r. split; [done|]. intros k.
    destruct (data !! k); cbn; by rewrite ?app_nil_r.
  - destruct (first_match_returns t CATEGORIES) as [r Hr]; [done|].
    rewrite classify_loop_cons, Hr. cbn [mbind outcome_bind].
    destruct r as [c|].
    + destruct (IH (alter (fun l => l ++ [t]) c data) rest) as (data' & -> & Hk).
      exists data'. split.
      { rewrite sent_to_cons, Hr. by rewrite bool_decide_false. }
      intros k. rewrite Hk, sent_to_cons, Hr.
      destruct (decide (c = k)) as [->|Hne].
      * rewrite lookup_alter_eq. rewrite bool_decide_true by done.
        destruct (data !! k); cbn; [|done]. by rewrite <- app_assoc.
      * rewrite lookup_alter_ne by done.
        rewrite bool_decide_false by congruence. done.
    + destruct (IH data (rest ++ [t])) as (data' & -> & Hk).
      exists data'. split.
      { rewrite sent_to_cons, Hr, bool_decide_true by done.
        by rewrite <- app_assoc. }
      intros k. rewrite Hk, sent_to_cons, Hr. by rewrite bool_decide_false.
Qed.

Lemma classified_init_Some k :
  k ∈ CATEGORIES -> classified_init !! k = Some [].
Proof.
  unfold CATEGORIES. intros H.
  repeat (apply elem_of_cons in H as [->|H]; [reflexivity|]).
  by apply elem_of_nil in H.
Qed.

Lemma classified_init_None k :
  k ∉ CATEGORIES -> classified_init !! k = None.
Proof. intros H. apply not_elem_of_list_to_map_1. exact H. Qed.

(** The whole classification, in closed form. *)
Lemma classify_closed texts scalars interests :
  exists r,
    classify categories texts scalars interests = Returns r /\
    (forall k, k ∈ CATEGORIES ->
       classified_data r !! k
         = Some (empty_to_NA (sent_to categories (Some k) texts))) /\
    (forall k, k ∉ CATEGORIES -> classified_data r !! k = None) /\
    otros r =
      List.filter
        (fun item => negb (bool_decide
           (item ∈ contenido_ya_recogido (classified_data r) scalars interests)))
        (sent_to categories None texts).
Proof.
  unfold classify.
  destruct (classify_loop_closed texts classified_init []) as (lists & -> & Hk).
  cbn. eexists. split; [reflexivity|]. cbn. split; [|split; [|done]].
  - intros k Hin. rewrite lookup_fmap, Hk, classified_init_Some by done. done.
  - intros k Hin. rewrite lookup_fmap, Hk, classified_init_None by done. done.
Qed.

End ClassifyFacts.

Section ListFacts.

Context {A : Type} `{EqDecision A}.

Lemma occurrences_filter (P : A -> bool) (x : A) (l : list A) :
  occurrences x (List.filter P l) = if P x then occurrences x l else 0%nat.
Proof.
  unfold occurrences. induction l as [|y l IH]; simpl.
  - by destruct (P x).
  - destruct (P y) eqn:Py; simpl.
    + case_bool_decide as E; simpl; [subst y; rewrite Py in *; by f_equal|].
      exact IH.
    + case_bool_decide as E; simpl; [subst y; by rewrite Py in *|exact IH].
Qed.

Lemma occurrences_pos (x : A) (l : list A) :
  x ∈ l <-> (0 < occurrences x l)%nat.
Proof.
  unfold occurrences. induction l as [|y l IH]; simpl.
  - split; [intros H; by apply elem_of_nil in H|lia].
  - rewrite elem_of_cons. case_bool_decide as E; simpl.
    + split; [lia|]. intros _. left. done.
    + rewrite <- IH. split; [intros [->|]; done|by right].
Qed.

End ListFacts.



Section ClassifyClaims.

Import Classify.

Variable categories : vocabularies.
Hypothesis configured : forall k, k ∈ CATEGORIES -> is_Some (categories !! k).

Lemma elem_of_strings_of x v :
  x ∈ strings_of v <-> exists l, v = VList l /\ AStr x ∈ l.
Proof.
  destruct v as [a|t|l]; simpl.
  - split; [set_solver|]. intros (l & [=] & _).
  - split; [set_solver|]. intros (l & [=] & _).
  - rewrite elem_of_list_to_set, list_elem_of_omap. split.
    + intros (a & Ha & Hs). exists l. split; [done|].
      destruct a; try discriminate. by injection Hs as ->.
    + intros (l' & [= <-] & Hin). exists (AStr x). done.
Qed.

Lemma elem_of_contenido data scalars interests x :
  x ∈ contenido_ya_recogido data scalars interests <->
  (exists k l, data !! k = Some (VList l) /\ AStr x ∈ l)
  \/ (x ∈ scalars /\ x <> NA) \/ x ∈ interests.
Proof.
  unfold contenido_ya_recogido.
  rewrite !elem_of_union, elem_of_union_list, !elem_of_list_to_set.
  rewrite list_elem_of_In, filter_In, <- list_elem_of_In.
  rewrite negb_true_iff, bool_decide_eq_false.
  split.
  - intros [[(X & HX & Hx)|H]|H]; [left|right; left; done|right; right; done].
    apply list_elem_of_fmap in HX as (v & -> & Hv).
    apply list_elem_of_fmap in Hv as ([k v'] & -> & Hkv).
    apply elem_of_map_to_list in Hkv. simpl in Hx.
    apply elem_of_strings_of in Hx as (l & -> & Hl). eauto.
  - intros [(k & l & Hk & Hl)|[H|H]]; [left; left|left; right; done|right; done].
    exists (strings_of (VList l)). split.
    + apply list_elem_of_fmap. exists (VList l). split; [done|].
      apply list_elem_of_fmap. exists (k, VList l). split; [done|].
      by apply elem_of_map_to_list.
    + apply elem_of_strings_of. eauto.
Qed.

Lemma elem_of_sent_to k t texts :
  t ∈ sent_to categories k texts <->
  t ∈ texts /\ first_match categories t CATEGORIES = Returns k.
Proof.
  unfold sent_to.
  rewrite list_elem_of_In, filter_In, <- list_elem_of_In, bool_decide_eq_true.
  done.
Qed.

Lemma elem_of_empty_to_NA l items t :
  empty_to_NA l = VList items -> (AStr t ∈ items <-> t ∈ l).
Proof.
  destruct l as [|x l]; [discriminate|]. intros [= <-].
  change (AStr t ∈ AStr <$> (x :: l) <-> t ∈ x :: l).
  rewrite list_elem_of_fmap. split.
  - intros (y & [= ->] & Hy). done.
  - intros H. eauto.
Qed.



(** C7 (amended).  A collected text that no vocabulary of the seven
    categories holds, that differs from every scalar field value other
    than "NA" and that is not an interest, is in [otros] as often as it
    was collected: the pass removes what is held elsewhere and merges
    nothing.  So it is there when it was collected, and exactly once
    when it was collected once. *)
Theorem otros_keeps_unclassified (texts scalars interests : list pystr) (t : pystr) :
  (forall k v, k ∈ CATEGORIES -> categories !! k = Some v -> t ∉ v) ->
  (forall s, s ∈ scalars -> s <> NA -> t <> s) ->
  t ∉ interests ->
  exists r,
    classify categories texts scalars interests = Returns r /\
    occurrences t (otros r) = occurrences t texts /\
    (t ∈ texts -> t ∈ otros r) /\
    (occurrences t texts = 1%nat -> occurrences t (otros r) = 1%nat).
Proof.
  intros Hvocab Hscalars Hinterests.
  destruct (classify_closed categories configured texts scalars interests)
    as (r & Hr & Hin & Hout & Hotros).
  exists r. split; [exact Hr|].
  assert (Hmiss : first_match categories t CATEGORIES = Returns None)
    by (apply (first_match_miss categories configured); done).
  assert (Hfresh : t ∉ contenido_ya_recogido (classified_data r) scalars interests).
  { rewrite elem_of_contenido. intros [(k & l & Hk & Hl)|[[Hs Hna]|Hi]].
    - destruct (decide (k ∈ CATEGORIES)) as [Hk'|Hk'].
      + rewrite (Hin k Hk') in Hk. injection Hk as Hk.
        apply (elem_of_empty_to_NA _ _ t Hk) in Hl.
        apply elem_of_sent_to in Hl as [_ Hl]. congruence.
      + rewrite (Hout k Hk') in Hk. discriminate.
    - by apply (Hscalars t).
    - done. }
  assert (Hcount : occurrences t (otros r) = occurrences t texts).
  { rewrite Hotros, occurrences_filter. rewrite bool_decide_false by done.
    unfold sent_to. rewrite occurrences_filter.
    by rewrite bool_decide_true. }
  split; [exact Hcount|]. split.
  - rewrite !occurrences_pos. by rewrite Hcount.
  - by rewrite Hcount.
Qed.

End ClassifyClaims.

Lemma aries_only_configured k :
  k ∈ Classify.CATEGORIES -> is_Some (Examples.aries_only !! k).
Proof.
  unfold Classify.CATEGORIES. intros H.
  repeat (apply elem_of_cons in H as [->|H]; [vm_compute; eexists; reflexivity|]).
  by apply elem_of_nil in H.
Qed.

Lemma aries_only_vocabulary k v :
  k ∈ Classify.CATEGORIES -> Examples.aries_only !! k = Some v ->
  Examples.Le_gusta_correr ∉ v.
Proof.
  unfold Classify.CATEGORIES. intros H.
  repeat (apply elem_of_cons in H as [->|H];
          [intros Hv; vm_compute in Hv; injection Hv as <-;
           by apply (bool_decide_unpack _)|]).
  by apply elem_of_nil in H.
Qed.

(** The scenario of the specification: vocabulary [{horoscopo: ["Aries"]}],
    texts ["Aries", "Le gusta correr"]. *)
Example classify_aries :
  exists r,
    Classify.classify Examples.aries_only
      [Examples.Aries; Examples.Le_gusta_correr] [] [] = Returns r /\
    Classify.classified_data r !! "horoscopo"%string
      = Some (VList [AStr Examples.Aries]) /\
    Classify.otros r = [Examples.Le_gusta_correr].
Proof. eexists. split; [by vm_compute|]. split; by vm_compute. Qed.


(** C7, as stated, fails: a text collected twice is in [otros] twice. *)
Lemma otros_repeats_counterexample :
  (forall k v, k ∈ Classify.CATEGORIES -> Examples.aries_only !! k = Some v ->
     Examples.Le_gusta_correr ∉ v) /\
  exists r,
    Classify.classify Examples.aries_only
      [Examples.Le_gusta_correr; Examples.Le_gusta_correr] [] [] = Returns r /\
    occurrences Examples.Le_gusta_correr (Classify.otros r) = 2%nat.
Proof.
  split; [exact aries_only_vocabulary|].
  eexists. split; by vm_compute.
Qed.

(** C7 (amended), at a text collected once. *)
Lemma otros_keeps_unclassified_witness :
  exists r,
    Classify.classify Examples.aries_only
      [Examples.Aries; Examples.Le_gusta_correr] [] [] = Returns r /\
    occurrences Examples.Le_gusta_correr (Classify.otros r) = 1%nat.
Proof.
  destruct (otros_keeps_unclassified Examples.aries_only aries_only_configured
              [Examples.Aries; Examples.Le_gusta_correr] [] []
              Examples.Le_gusta_correr)
    as (r & Hr & _ & _ & Honce).
  - exact aries_only_vocabulary.
  - intros s Hs. by apply elem_of_nil in Hs.
  - apply not_elem_of_nil.
  - exists r. split; [exact Hr|]. apply Honce. by vm_compute.
Defined.

(* ===================================================================== *)
(** * Facts about the OCR verification *)
(* ===================================================================== *)

Section OCRFacts.

Import OCR.

Context {image : Type}.
Variable detect_verification_icon : image -> pystr.






End OCRFacts.

(** Three passes that read "Ana": success at the first pass.  Three
    passes that read nothing: failure after the third. *)
Example verify_ana_and_blank :
  OCR.verified
    (OCR.verify_profile_with_ocr unit Examples.no_badge (Some true)
       Examples.ana_passes Examples.disk_with_shot Examples.shot 3) = true /\
  OCR.ocr_passes
    (OCR.verify_profile_with_ocr unit Examples.no_badge (Some true)
       Examples.ana_passes Examples.disk_with_shot Examples.shot 3) = 1%nat /\
  OCR.verified
    (OCR.verify_profile_with_ocr unit Examples.no_badge (Some true)
       Examples.blank_passes Examples.disk_with_shot Examples.shot 3) = false /\
  OCR.ocr_passes
    (OCR.verify_profile_with_ocr unit Examples.no_badge (Some true)
       Examples.blank_passes Examples.disk_with_shot Examples.shot 3) = 3%nat.
Proof. repeat split. Qed.

Section CleanupFacts.

Import OCR.

Context {image : Type}.
Variable detect_verification_icon : image -> pystr.


(** A screenshot that is there and can be deleted is gone after
    [_cleanup_image]. *)
Lemma cleanup_removes (fs : Disk.filesystem) (path : string) :
  path ∈ Disk.present fs -> path ∉ Disk.undeletable fs ->
  path ∉ Disk.present (_cleanup_image fs path).
Proof.
  intros Hin Hdel. unfold _cleanup_image, Disk.exists_, Disk.remove.
  rewrite !bool_decide_true by done. rewrite bool_decide_false by done.
  simpl. rewrite elem_of_difference. intros [_ Hne]. apply Hne.
  by apply elem_of_singleton.
Qed.

End CleanupFacts.

(** C8, where the code departs from it.  With the flag set to false and
    three OCR passes that read nothing, [verify_profile_with_ocr] fails
    and the screenshot is deleted all the same, while
    [verificar_nombre_con_ocr] on the same input keeps it; on success
    with the flag set to false both keep it. *)
Theorem verify_failure_deletes_with_flag_unset :
  OCR.verified
    (OCR.verify_profile_with_ocr unit Examples.no_badge (Some false)
       Examples.blank_passes Examples.disk_with_shot Examples.shot 3) = false /\
  (Examples.shot ∉ Disk.present (OCR.disk
    (OCR.verify_profile_with_ocr unit Examples.no_badge (Some false)
       Examples.blank_passes Examples.disk_with_shot Examples.shot 3))) /\
  (exists v,
     OCR.verificar_nombre_con_ocr unit Examples.no_badge (Some false)
       Examples.blank_passes Examples.disk_with_shot Examples.shot 3 = Returns v /\
     OCR.verified v = false /\ Examples.shot ∈ Disk.present (OCR.disk v)) /\
  Examples.shot ∈ Disk.present (OCR.disk
    (OCR.verify_profile_with_ocr unit Examples.no_badge (Some false)
       Examples.ana_passes Examples.disk_with_shot Examples.shot 3)).
Proof.
  split; [reflexivity|]. split; [|split].
  - apply (bool_decide_unpack _). by vm_compute.
  - eexists. split; [reflexivity|]. split; [reflexivity|].
    apply (bool_decide_unpack _). by vm_compute.
  - apply (bool_decide_unpack _). by vm_compute.
Qed.

(* ===================================================================== *)
(** * Facts about the image-URL discovery *)
(* ===================================================================== *)

Section DiscoveryFacts.

Import Images.




Variable always : bool.
Variable page : nat -> scroll_step.
Variable bound : Z.

(** More fuel does not change a result. *)
Lemma discovery_loop_fuel fuel i found unchanged r :
  discovery_loop always fuel page bound i found unchanged = Some r ->
  discovery_loop always (S fuel) page bound i found unchanged = Some r.
Proof.
  revert i found unchanged. induction fuel as [|fuel IH]; intros i found c; [done|].
  intros H. simpl in H. cbn [discovery_loop].
  destruct (c <? bound); [|done].
  destruct (scanned (page i)); [done|].
  destruct (accumulate _ _ _) as [f' c'].
  destruct ((always || (c' <? bound)) && negb (scroll_ok (page i))); [done|].
  by apply IH.
Qed.


Variable discoverable : gset pystr.

(** Every scan that succeeds returns discoverable URLs only. *)
Hypothesis scans_discoverable :
  forall j ms, scanned (page j) = Scanned ms -> new_urls ms ⊆ discoverable.




End DiscoveryFacts.






(* ===================================================================== *)
(** * Facts about the two save paths *)
(* ===================================================================== *)

Section SaverFacts.

Import Saver.

(** A cleaned value is a scalar other than [None]. *)
Lemma clean_value_scalar (v : value) :
  exists a, clean_value v = VAtom a /\ a <> ANone.
Proof.
  destruct v as [a|text|items]; simpl.
  - destruct a; simpl; eexists; (split; [reflexivity|discriminate]).
  - eexists; split; [reflexivity|discriminate].
  - destruct items; simpl; eexists; (split; [reflexivity|discriminate]).
Qed.

(** [_format_list_fields] changes nothing where no list is left. *)
Lemma format_list_fields_no_list (p : profile) :
  (forall k v, p !! k = Some v -> is_list v = false) ->
  _format_list_fields p = p.
Proof.
  intros Hno. unfold _format_list_fields.
  induction list_fields as [|field fields IH]; simpl; [done|].
  assert (format_field p field = p) as ->; [|exact IH].
  unfold format_field. destruct (p !! field) as [[a|t|items]|] eqn:E; try done.
  by apply Hno in E.
Qed.

Lemma clean_profile_fmap (p : profile) :
  clean_profile p = clean_value <$> p.
Proof.
  apply format_list_fields_no_list. intros k v.
  rewrite lookup_fmap. destruct (p !! k) as [v0|]; simpl; [|done].
  intros [= <-]. destruct (clean_value_scalar v0) as (a & -> & _). done.
Qed.

(** On a list of strings [str] changes nothing. *)
Lemma strings_as_they_are (items : list atom) :
  forallb is_str items = true ->
  omap (fun a => match a with AStr s => Some s | _ => None end) items
  = str <$> items.
Proof.
  induction items as [|a items IH]; simpl; [done|].
  intros [Ha Hrest]%andb_prop. destruct a; try discriminate.
  cbn. f_equal. by apply IH.
Qed.

(** Both paths flatten a list in the same way. *)
Lemma list_flattening_same (items : list atom) :
  simple_clean_value (VList items) = clean_value (VList items).
Proof.
  simpl. destruct items as [|a items]; [done|].
  unfold join_or_NA. destruct (forallb is_str (a :: items)) eqn:E; [|done].
  by rewrite strings_as_they_are.
Qed.

(** The cleaning of [ProfileSaver] is that of the procedural path
    followed by the replacement of [None]. *)
Lemma clean_value_simple (v : value) :
  clean_value v = none_to_NA (simple_clean_value v).
Proof.
  destruct v as [a|text|items].
  - done.
  - done.
  - rewrite list_flattening_same.
    destruct (clean_value_scalar (VList items)) as (a & -> & Ha).
    by destruct a.
Qed.

Lemma simple_clean_value_no_list (v : value) :
  is_list (simple_clean_value v) = false.
Proof.
  destruct v as [a|text|items]; try done.
  rewrite list_flattening_same.
  by destruct (clean_value_scalar (VList items)) as (a & -> & _).
Qed.

(** The [fields_to_join] loop of the procedural path finds no list. *)
Lemma simple_clean_profile_fmap (p : profile) :
  simple_clean_profile p = Returns (simple_clean_value <$> p).
Proof.
  unfold simple_clean_profile.
  assert (Hno : forall k v, (simple_clean_value <$> p) !! k = Some v ->
                            is_list v = false).
  { intros k v. rewrite lookup_fmap.
    destruct (p !! k) as [v0|]; simpl; [|done].
    intros [= <-]. apply simple_clean_value_no_list. }
  revert Hno. generalize (simple_clean_value <$> p). intros q Hno.
  induction list_fields as [|field fields IH]; cbn [foldl]; [done|].
  assert (simple_join_field (Returns q) field = Returns q) as ->; [|exact IH].
  unfold simple_join_field. cbn [mbind outcome_bind].
  destruct (q !! field) as [[a|t|items]|] eqn:E; try done.
  by apply Hno in E.
Qed.

End SaverFacts.


(** C9, as stated, fails: no profile has a list-valued field that the
    two cleaning functions turn into different values; an empty list in
    particular becomes "NA" on both paths. *)
Lemma list_fields_flattened_alike_counterexample :
  (~ exists (p : profile) (k : string) (items : list atom),
       p !! k = Some (VList items) /\
       forall q, Saver.simple_clean_profile p = Returns q ->
                 q !! k <> Saver.clean_profile p !! k) /\
  Saver.simple_clean_value (VList []) = VStr NA /\
  Saver.clean_value (VList []) = VStr NA.
Proof.
  split; [|done].
  intros (p & k & items & Hk & Hne).
  apply (Hne _ (simple_clean_profile_fmap p)).
  rewrite clean_profile_fmap, !lookup_fmap, Hk. simpl. f_equal.
  apply (list_flattening_same items).
Qed.

(** C9 (amended).  The two save paths flatten list fields in the same
    way: an empty list becomes "NA", any other list its items' string
    forms joined by " | ".  The cleaning of [ProfileSaver] is the
    cleaning of the procedural path followed by the replacement of
    [None] by "NA": the two differ on the fields that hold [None], and
    on no other. *)
Theorem save_paths_differ_only_on_None (p : profile) :
  Saver.simple_clean_profile p = Returns (Saver.simple_clean_value <$> p) /\
  Saver.clean_profile p = Saver.none_to_NA <$> (Saver.simple_clean_value <$> p) /\
  (forall k items, p !! k = Some (VList items) ->
     Saver.clean_profile p !! k = Some (Saver.join_or_NA items) /\
     (Saver.simple_clean_value <$> p) !! k = Some (Saver.join_or_NA items)) /\
  (forall k v, p !! k = Some v -> v <> VNone ->
     Saver.clean_profile p !! k = (Saver.simple_clean_value <$> p) !! k) /\
  (forall k, p !! k = Some VNone ->
     Saver.clean_profile p !! k = Some (VStr NA) /\
     (Saver.simple_clean_value <$> p) !! k = Some VNone).
Proof.
  split; [apply simple_clean_profile_fmap|]. split; [|split; [|split]].
  - rewrite clean_profile_fmap. apply map_eq. intros k.
    rewrite !lookup_fmap. destruct (p !! k) as [v|]; simpl; [|done].
    by rewrite clean_value_simple.
  - intros k items Hk. rewrite clean_profile_fmap, !lookup_fmap, Hk. simpl.
    split; [done|]. f_equal. apply (list_flattening_same items).
  - intros k v Hk Hv. rewrite clean_profile_fmap, !lookup_fmap, Hk. simpl.
    f_equal. rewrite clean_value_simple.
    destruct v as [a|text|items].
    + destruct a; try done.
    + done.
    + rewrite list_flattening_same.
      destruct (clean_value_scalar (VList items)) as (a & -> & Ha).
      by destruct a.
  - intros k Hk. rewrite clean_profile_fmap, !lookup_fmap, Hk. done.
Qed.


(* ===================================================================== *)
(** * Facts about the session driver *)
(* ===================================================================== *)

Section DriverFacts.

Import Driver.

Lemma occurrences_app {A} `{EqDecision A} (x : A) (l1 l2 : list A) :
  occurrences x (l1 ++ l2) = (occurrences x l1 + occurrences x l2)%nat.
Proof. unfold occurrences. by rewrite List.filter_app, length_app. Qed.

(** What a successful validation says of the record. *)
Lemma validate_true_inv (p : profile) :
  _validate_profile p = Returns true ->
  (exists images n, p !! "imagenes"%string = Some images /\
     len images = Returns n /\ (0 < n)%nat /\ images <> VStr NA) /\
  (exists nombre, p !! "nombre"%string = Some nombre /\
     truthy nombre = true /\ nombre <> VStr NA).
Proof.
  unfold _validate_profile.
  destruct (p !! "imagenes"%string) as [images|]; simpl; [|discriminate].
  destruct (truthy images); simpl; [|discriminate].
  case_bool_decide as Hna; [discriminate|].
  destruct (len images) as [n|e] eqn:Hlen; simpl; [|discriminate].
  destruct (n =? 0)%nat eqn:Hn; [discriminate|]. apply Nat.eqb_neq in Hn.
  destruct (p !! "nombre"%string) as [nombre|]; simpl; [|discriminate].
  destruct (truthy nombre) eqn:Htruthy; simpl; [|discriminate].
  case_bool_decide as Hname; [discriminate|]. intros _. split.
  - exists images, n. split; [done|]. split; [done|]. split; [lia|done].
  - exists nombre. done.
Qed.

(** A record without photos fails the validation, whatever else it
    holds. *)
Lemma validate_no_images (p : profile) :
  p !! "imagenes"%string = None \/ p !! "imagenes"%string = Some (VList []) ->
  _validate_profile p = Returns false.
Proof. unfold _validate_profile. by intros [-> | ->]. Qed.

Variable cfg : parameters.

Lemma swipe_buffer w s :
  profiles_buffer (_perform_swipe_action cfg w s) = profiles_buffer s.
Proof.
  unfold _perform_swipe_action.
  by destruct (key_ok w), (Qltb (random (draw w)) (like_probability cfg)).
Qed.

Lemma save_if_needed_same s :
  profiles_buffer (_save_if_needed cfg s) = profiles_buffer s /\
  trace (_save_if_needed cfg s) = trace s.
Proof.
  unfold _save_if_needed.
  destruct (save_interval cfg <=? _); [|done].
  by destruct (Saver.save_profiles _ _) as [[[|] f] r].
Qed.

Lemma save_remaining_same s :
  profiles_buffer (_save_remaining_profiles s) = profiles_buffer s /\
  trace (_save_remaining_profiles s) = trace s.
Proof.
  unfold _save_remaining_profiles.
  destruct (drop _ _); [done|].
  by destruct (Saver.save_profiles _ _) as [[[|] f] r].
Qed.

Lemma swipe_and_save_buffer w s :
  profiles_buffer (swipe_and_save cfg w s) = profiles_buffer s.
Proof.
  unfold swipe_and_save.
  by rewrite (proj1 (save_if_needed_same _)), swipe_buffer.
Qed.

(** A turn leaves the buffer as it was or appends the one record it
    extracted, and the latter only after validating it. *)
Lemma run_iteration_buffer w s :
  profiles_buffer (run_iteration cfg w s).1 = profiles_buffer s \/
  exists p, extraction w = Some p /\ _validate_profile p = Returns true /\
            profiles_buffer (run_iteration cfg w s).1 = profiles_buffer s ++ [p].
Proof.
  unfold run_iteration.
  destruct (Qltb _ _).
  { left. unfold navigate_to_recommendations. by destruct (navigation_ok w). }
  destruct (extraction w) as [p|];
    [|left; cbn [fst]; by rewrite swipe_and_save_buffer].
  case_bool_decide; [left; cbn [fst]; by rewrite swipe_and_save_buffer|].
  destruct (_validate_profile p) as [[|]|e] eqn:Hv.
  - right. exists p. split; [done|]. split; [done|].
    cbn [fst]. by rewrite swipe_and_save_buffer.
  - left. done.
  - left. done.
Qed.

Lemma run_loop_buffer (world : nat -> turn) turns s :
  Forall (fun p => _validate_profile p = Returns true) (profiles_buffer s) ->
  Forall (fun p => _validate_profile p = Returns true)
         (profiles_buffer (run_loop cfg world turns s).1).
Proof.
  revert s. induction turns as [|i turns IH]; intros s Hs; simpl; [done|].
  assert (Hstep : Forall (fun p => _validate_profile p = Returns true)
                    (profiles_buffer (run_iteration cfg (world i) s).1)).
  { destruct (run_iteration_buffer (world i) s) as [-> | (p & _ & Hv & ->)];
      [done|].
    apply Forall_app. split; [done|]. by constructor. }
  destruct (run_iteration cfg (world i) s) as [s' [e|]]; [done|].
  by apply IH.
Qed.

(** With a like probability of 0 the draw never accepts. *)
Lemma never_right k :
  like_probability cfg == 0 ->
  Qltb (random k) (like_probability cfg) = false.
Proof.
  intros Hp. unfold Qltb. apply negb_false_iff, Qle_bool_iff.
  rewrite Hp. unfold random, Qle. simpl. lia.
Qed.

(** With a like probability of 0 the end of a turn that reaches the
    swipe is a reject, or a failed key press. *)
Lemma swipe_and_save_trace w s :
  like_probability cfg == 0 ->
  trace (swipe_and_save cfg w s)
  = trace s ++ [if key_ok w then SwipeLeft else KeyFailed].
Proof.
  intros Hp. unfold swipe_and_save.
  rewrite (proj2 (save_if_needed_same _)). unfold _perform_swipe_action.
  rewrite never_right by done. by destruct (key_ok w).
Qed.

Lemma run_iteration_events w s :
  like_probability cfg == 0 ->
  exists evs,
    trace (run_iteration cfg w s).1 = trace s ++ evs /\
    occurrences SwipeRight evs = 0%nat /\
    (ended evs <= 1)%nat /\
    ((run_iteration cfg w s).2 = None -> ended evs = 1%nat).
Proof.
  intros Hp. unfold run_iteration.
  assert (Hswipe : forall x, exists ev,
             trace (swipe_and_save cfg w x) = trace x ++ [ev] /\
             (ev = SwipeLeft \/ ev = KeyFailed)).
  { intros x. rewrite swipe_and_save_trace by done.
    destruct (key_ok w); eauto. }
  assert (Hone : forall x, trace x = trace s ++ [Extraction] ->
             exists evs,
               trace (swipe_and_save cfg w x) = trace s ++ evs /\
               occurrences SwipeRight evs = 0%nat /\
               (ended evs <= 1)%nat /\ ended evs = 1%nat).
  { intros x Hx. destruct (Hswipe x) as (ev & -> & Hev).
    exists [Extraction; ev]. rewrite Hx, <- app_assoc.
    by destruct Hev as [-> | ->]. }
  destruct (Qltb _ _).
  { exists [Recommendations]. unfold navigate_to_recommendations.
    by destruct (navigation_ok w). }
  destruct (extraction w) as [p|].
  - case_bool_decide.
    + destruct (Hone (with_stats add_error (log Extraction s)) eq_refl)
        as (evs & H1 & H2 & H3 & H4).
      exists evs. by cbn [fst snd].
    + destruct (_validate_profile p) as [[|]|e].
      * destruct (Hone (with_time (clock_added w)
                   (with_stats add_profile
                      (with_buffer (profiles_buffer (log Extraction s) ++ [p])
                         (log Extraction s)))) eq_refl)
          as (evs & H1 & H2 & H3 & H4).
        exists evs. by cbn [fst snd].
      * exists [Extraction; Recommendations]. simpl. rewrite <- app_assoc.
        by destruct (navigation_ok w).
      * exists [Extraction]. split; [done|]. split; [done|].
        split; [vm_compute; lia|discriminate].
  - destruct (Hone (with_stats add_error (log Extraction s)) eq_refl)
      as (evs & H1 & H2 & H3 & H4).
    exists evs. by cbn [fst snd].
Qed.

Lemma run_loop_events (world : nat -> turn) turns s :
  like_probability cfg == 0 ->
  exists evs,
    trace (run_loop cfg world turns s).1 = trace s ++ evs /\
    occurrences SwipeRight evs = 0%nat /\
    (ended evs <= length turns)%nat /\
    ((run_loop cfg world turns s).2 = None -> ended evs = length turns).
Proof.
  intros Hp. revert s. induction turns as [|i turns IH]; intros s; simpl.
  - exists []. by rewrite app_nil_r.
  - destruct (run_iteration_events (world i) s Hp) as (evs & Ht & Hr & Hle & Heq).
    destruct (run_iteration cfg (world i) s) as [s' [e|]]; simpl in *.
    + exists evs. repeat split; [done|done|lia|done].
    + destruct (IH s') as (evs' & Ht' & Hr' & Hle' & Heq').
      exists (evs ++ evs'). rewrite Ht', Ht, <- app_assoc.
      unfold ended in *. rewrite !occurrences_app.
      repeat split; [lia|lia|]. intros Hnone.
      specialize (Heq eq_refl). specialize (Heq' Hnone). lia.
Qed.

End DriverFacts.

(** C2.  Every record in the buffer at the end of a session has passed
    the validation, so it has a non-empty image list (or image string
    other than "NA") and a non-empty name other than "NA"; a record
    without photos is never in the buffer, whatever else it holds.  A
    turn appends at most the one record it extracted, and only after
    validating it.  A turn whose record fails the validation leaves the
    buffer as it was, calls the extraction once only, sends no key, and
    issues the navigation to the recommendations page. *)
Theorem only_validated_profiles_buffered (cfg : Driver.parameters)
    (world : nat -> Driver.turn) (now : Q) (output : Saver.store) :
  (forall p,
     p ∈ Driver.profiles_buffer (Driver.run cfg world (Driver.init now output)) ->
     Driver._validate_profile p = Returns true /\
     (exists images n, p !! "imagenes"%string = Some images /\
        len images = Returns n /\ (0 < n)%nat /\ images <> VStr NA) /\
     (exists nombre, p !! "nombre"%string = Some nombre /\
        truthy nombre = true /\ nombre <> VStr NA)) /\
  (forall p,
     p !! "imagenes"%string = None \/ p !! "imagenes"%string = Some (VList []) ->
     p ∉ Driver.profiles_buffer (Driver.run cfg world (Driver.init now output))) /\
  (forall w s,
     Driver.profiles_buffer (Driver.run_iteration cfg w s).1
       = Driver.profiles_buffer s \/
     exists p, Driver.extraction w = Some p /\
               Driver._validate_profile p = Returns true /\
               Driver.profiles_buffer (Driver.run_iteration cfg w s).1
                 = Driver.profiles_buffer s ++ [p]) /\
  (forall w s p,
     Driver.Qltb (Driver.timeout_minutes cfg * 60)
       (Driver.clock_check w - Driver.last_profile_time s) = false ->
     Driver.extraction w = Some p -> p <> ∅ ->
     Driver._validate_profile p = Returns false ->
     Driver.run_iteration cfg w s
     = (Driver.log Driver.Recommendations (Driver.log Driver.Extraction s),
        if Driver.navigation_ok w then None else Some WebDriverException)).
Proof.
  assert (Hall : Forall (fun p => Driver._validate_profile p = Returns true)
            (Driver.profiles_buffer (Driver.run cfg world (Driver.init now output)))).
  { unfold Driver.run. rewrite (proj1 (save_remaining_same _)).
    apply run_loop_buffer. constructor. }
  rewrite Forall_forall in Hall.
  split; [|split; [|split]].
  - intros p Hp. split; [by apply Hall|]. apply validate_true_inv. by apply Hall.
  - intros p Hno Hp. apply Hall in Hp.
    rewrite (validate_no_images p Hno) in Hp. discriminate.
  - apply run_iteration_buffer.
  - intros w s p Hcalm Hext Hne Hv. unfold Driver.run_iteration.
    rewrite Hcalm, Hext, bool_decide_false, Hv by done. done.
Qed.

(** C6, as stated, fails: in a session of three profiles with like
    probability 0 whose extracted records have no photo, no reject is
    issued; each turn ends in a recovery navigation. *)
Lemma no_photo_session_counterexample :
  Driver.num_profiles Examples.three_never_like = 3 /\
  Driver.like_probability Examples.three_never_like == 0 /\
  Driver.trace
    (Driver.run Examples.three_never_like
       (fun _ => Examples.calm_turn (Some Examples.no_photo_profile))
       (Driver.init 0 Examples.no_file))
  = [Driver.Extraction; Driver.Recommendations;
     Driver.Extraction; Driver.Recommendations;
     Driver.Extraction; Driver.Recommendations] /\
  occurrences Driver.SwipeLeft
    (Driver.trace
       (Driver.run Examples.three_never_like
          (fun _ => Examples.calm_turn (Some Examples.no_photo_profile))
          (Driver.init 0 Examples.no_file))) = 0%nat.
Proof. repeat split; by vm_compute. Qed.

(** C6 (amended).  With a like probability of 0 a session issues no
    accept, and at most one reject per turn, so at most [num_profiles]
    rejects (3 in the scenario).  When no exception escapes the loop,
    each turn ends in exactly one of a reject, a recovery navigation and
    a failed key press, so the rejects are [num_profiles] less the turns
    that ended in one of the other two.  A turn on which the stall check
    fires navigates and neither extracts nor swipes; a turn without
    stall whose extraction failed or gave a record that passes the
    validation sends the reject key, whatever the record holds. *)
Theorem never_like_session_swipes (cfg : Driver.parameters)
    (world : nat -> Driver.turn) (now : Q) (output : Saver.store) :
  Driver.like_probability cfg == 0 ->
  occurrences Driver.SwipeRight
    (Driver.trace (Driver.run cfg world (Driver.init now output))) = 0%nat /\
  (occurrences Driver.SwipeLeft
     (Driver.trace (Driver.run cfg world (Driver.init now output)))
   <= Z.to_nat (Driver.num_profiles cfg))%nat /\
  ((Driver.run_loop cfg world (seq 1 (Z.to_nat (Driver.num_profiles cfg)))
      (Driver.init now output)).2 = None ->
   (occurrences Driver.SwipeLeft
      (Driver.trace (Driver.run cfg world (Driver.init now output)))
    + occurrences Driver.Recommendations
        (Driver.trace (Driver.run cfg world (Driver.init now output)))
    + occurrences Driver.KeyFailed
        (Driver.trace (Driver.run cfg world (Driver.init now output))))%nat
   = Z.to_nat (Driver.num_profiles cfg)) /\
  (forall w s,
     Driver.Qltb (Driver.timeout_minutes cfg * 60)
       (Driver.clock_check w - Driver.last_profile_time s) = true ->
     Driver.trace (Driver.run_iteration cfg w s).1
     = Driver.trace s ++ [Driver.Recommendations]) /\
  (forall w s,
     Driver.Qltb (Driver.timeout_minutes cfg * 60)
       (Driver.clock_check w - Driver.last_profile_time s) = false ->
     Driver.extraction w = None \/ Driver.extraction w = Some ∅ \/
     (exists p, Driver.extraction w = Some p /\
                Driver._validate_profile p = Returns true) ->
     Driver.trace (Driver.run_iteration cfg w s).1
     = Driver.trace s
       ++ [Driver.Extraction;
           if Driver.key_ok w then Driver.SwipeLeft else Driver.KeyFailed]).
Proof.
  intros Hp. split; [|split; [|split; [|split]]].
  - unfold Driver.run. rewrite (proj2 (save_remaining_same _)).
    destruct (run_loop_events cfg world (seq 1 (Z.to_nat (Driver.num_profiles cfg)))
                (Driver.init now output) Hp) as (evs & -> & Hr & _).
    exact Hr.
  - unfold Driver.run. rewrite (proj2 (save_remaining_same _)).
    destruct (run_loop_events cfg world (seq 1 (Z.to_nat (Driver.num_profiles cfg)))
                (Driver.init now output) Hp) as (evs & -> & _ & Hle & _).
    rewrite length_seq in Hle. unfold Driver.ended in Hle. simpl. lia.
  - unfold Driver.run. rewrite (proj2 (save_remaining_same _)).
    destruct (run_loop_events cfg world (seq 1 (Z.to_nat (Driver.num_profiles cfg)))
                (Driver.init now output) Hp) as (evs & -> & _ & _ & Heq).
    rewrite length_seq in Heq. exact Heq.
  - intros w s Hstall. unfold Driver.run_iteration. rewrite Hstall.
    unfold Driver.navigate_to_recommendations.
    by destruct (Driver.navigation_ok w).
  - intros w s Hcalm Hext. unfold Driver.run_iteration. rewrite Hcalm.
    destruct Hext as [-> | [-> | (p & -> & Hv)]].
    + cbn [fst]. rewrite swipe_and_save_trace by done.
      simpl. by rewrite <- app_assoc.
    + rewrite bool_decide_true by done.
      cbn [fst]. rewrite swipe_and_save_trace by done.
      simpl. by rewrite <- app_assoc.
    + case_bool_decide.
      * cbn [fst]. rewrite swipe_and_save_trace by done.
        simpl. by rewrite <- app_assoc.
      * rewrite Hv. cbn [fst]. rewrite swipe_and_save_trace by done.
        simpl. by rewrite <- app_assoc.
Qed.

(** C6 (amended), at the scenario: three profiles with a photo each. *)
Lemma never_like_session_swipes_witness :
  occurrences Driver.SwipeRight
    (Driver.trace
       (Driver.run Examples.three_never_like
          (fun _ => Examples.calm_turn (Some Examples.ana_profile))
          (Driver.init 0 Examples.no_file))) = 0%nat /\
  (occurrences Driver.SwipeLeft
     (Driver.trace
        (Driver.run Examples.three_never_like
           (fun _ => Examples.calm_turn (Some Examples.ana_profile))
           (Driver.init 0 Examples.no_file))) <= 3)%nat.
Proof.
  destruct (never_like_session_swipes Examples.three_never_like
              (fun _ => Examples.calm_turn (Some Examples.ana_profile))
              0 Examples.no_file) as (Hright & Hleft & _).
  - reflexivity.
  - split; [exact Hright|exact Hleft].
Defined.

(** The scenario where every turn reaches the swipe: three rejects. *)
Example three_rejects :
  Driver.trace
    (Driver.run Examples.three_never_like
       (fun _ => Examples.calm_turn None) (Driver.init 0 Examples.no_file))
  = [Driver.Extraction; Driver.SwipeLeft; Driver.Extraction; Driver.SwipeLeft;
     Driver.Extraction; Driver.SwipeLeft].
Proof. by vm_compute. Qed.

(** A session of three records with a photo buffers the three; a
    session of three records without photos buffers none. *)
Example buffer_of_two_sessions :
  Driver.profiles_buffer
    (Driver.run Examples.three_never_like
       (fun _ => Examples.calm_turn (Some Examples.ana_profile))
       (Driver.init 0 Examples.no_file))
  = [Examples.ana_profile; Examples.ana_profile; Examples.ana_profile] /\
  Driver.profiles_buffer
    (Driver.run Examples.three_never_like
       (fun _ => Examples.calm_turn (Some Examples.no_photo_profile))
       (Driver.init 0 Examples.no_file)) = [].
Proof. split; by vm_compute. Qed.

(* ===================================================================== *)
(** * Further facts about the two save paths *)
(* ===================================================================== *)

Section SaverMore.

Import Saver.

Lemma clean_value_idempotent (v : value) :
  clean_value (clean_value v) = clean_value v.
Proof.
  destruct (clean_value_scalar v) as (a & -> & Ha). by destruct a.
Qed.

(** X1.  Cleaning is idempotent: a record that [ProfileSaver] has
    cleaned is left as it is by a second cleaning, and so is a batch. *)
Theorem clean_profiles_idempotent (profiles : list profile) :
  _clean_profiles (_clean_profiles profiles) = _clean_profiles profiles /\
  forall p, clean_profile (clean_profile p) = clean_profile p.
Proof.
  assert (Hone : forall p, clean_profile (clean_profile p) = clean_profile p).
  { intros p. rewrite !clean_profile_fmap. apply map_eq. intros k.
    rewrite !lookup_fmap. destruct (p !! k) as [v|]; simpl; [|done].
    by rewrite clean_value_idempotent. }
  split; [|exact Hone].
  unfold _clean_profiles. rewrite <- list_fmap_compose.
  apply list_fmap_ext. intros i p _. apply Hone.
Qed.

(** X2.  Cleaning keeps the keys of a record and touches only elements,
    lists and [None]: a string, number or boolean field is stored as it
    was extracted (a string is not stripped), and a field is in the
    cleaned record exactly when it was in the extracted one. *)
Theorem clean_profile_keeps_keys_and_scalars (p : profile) :
  dom (clean_profile p) = dom p /\
  (forall k, clean_profile p !! k = None <-> p !! k = None) /\
  (forall k a, p !! k = Some (VAtom a) -> a <> ANone ->
     clean_profile p !! k = Some (VAtom a)) /\
  (forall k text, p !! k = Some (VElem text) ->
     clean_profile p !! k = Some (VStr (strip text))).
Proof.
  rewrite clean_profile_fmap. split; [apply dom_fmap_L|]. split; [|split].
  - intros k. rewrite lookup_fmap. by destruct (p !! k).
  - intros k a Hk Ha. rewrite lookup_fmap, Hk. simpl. by destruct a.
  - intros k text Hk. by rewrite lookup_fmap, Hk.
Qed.





End SaverMore.



(* ===================================================================== *)
(** * Further facts about the OCR verification *)
(* ===================================================================== *)

Section OCRMore.

Import OCR.

Context {image : Type}.
Variable detect_verification_icon : image -> pystr.











End OCRMore.



(* ===================================================================== *)
(** * Further facts about the image-URL discovery *)
(* ===================================================================== *)




(* ===================================================================== *)
(** * Further facts about the classification *)
(* ===================================================================== *)

Section ClassifyMore.

Import Classify.

Variable categories : vocabularies.
Hypothesis configured : forall k, k ∈ CATEGORIES -> is_Some (categories !! k).

(** X10.  The classified part of a profile has the seven category keys
    and no other.  Under each key is either the string "NA" or a
    non-empty list of strings, each a collected text that the
    vocabulary of that very category holds; a category whose vocabulary
    holds none of the collected texts has "NA". *)
Theorem category_lists_sound (texts scalars interests : list pystr) :
  exists r,
    classify categories texts scalars interests = Returns r /\
    (forall k, is_Some (classified_data r !! k) <-> k ∈ CATEGORIES) /\
    (forall k v, classified_data r !! k = Some v ->
       v = VStr NA \/ exists l, l <> [] /\ v = VList (AStr <$> l)) /\
    (forall k l t, classified_data r !! k = Some (VList l) -> AStr t ∈ l ->
       t ∈ texts /\ exists v, categories !! k = Some v /\ t ∈ v) /\
    (forall k v, k ∈ CATEGORIES -> categories !! k = Some v ->
       (forall t, t ∈ texts -> t ∉ v) ->
       classified_data r !! k = Some (VStr NA)).
Proof.
  destruct (classify_closed categories configured texts scalars interests)
    as (r & Hr & Hin & Hout & _).
  exists r. split; [exact Hr|]. split; [|split; [|split]].
  - intros k. split.
    + intros Hk. destruct (decide (k ∈ CATEGORIES)) as [|Hno]; [done|].
      rewrite (Hout k Hno) in Hk. by destruct Hk.
    + intros Hk. rewrite (Hin k Hk). eauto.
  - intros k v Hk.
    destruct (decide (k ∈ CATEGORIES)) as [Hc|Hno];
      [|rewrite (Hout k Hno) in Hk; discriminate].
    rewrite (Hin k Hc) in Hk. injection Hk as <-.
    destruct (sent_to categories (Some k) texts) as [|x l] eqn:E; [by left|].
    right. exists (x :: l). done.
  - intros k l t Hk Ht.
    destruct (decide (k ∈ CATEGORIES)) as [Hc|Hno];
      [|rewrite (Hout k Hno) in Hk; discriminate].
    rewrite (Hin k Hc) in Hk. injection Hk as Hk.
    apply (elem_of_empty_to_NA _ _ t Hk) in Ht.
    apply elem_of_sent_to in Ht as [Ht Hfirst]. split; [done|].
    apply (first_match_Some categories) in Hfirst
      as (pre & post & v & _ & Hv & Htv & _). eauto.
  - intros k v Hk Hv Hnone. rewrite (Hin k Hk).
    destruct (sent_to categories (Some k) texts) as [|x l] eqn:E; [done|].
    assert (Hx : x ∈ sent_to categories (Some k) texts) by (rewrite E; left).
    apply elem_of_sent_to in Hx as [Hx Hfirst].
    apply (first_match_Some categories) in Hfirst
      as (pre & post & v' & _ & Hv' & Htv & _).
    rewrite Hv in Hv'. injection Hv' as <-. by destruct (Hnone x).
Qed.

(** X11.  What is left in [otros] is a collected text that no
    vocabulary of the seven categories holds, that is in no category
    list, that is not an interest, and that equals no scalar field
    value other than "NA". *)
Theorem otros_holds_only_unclassified (texts scalars interests : list pystr) :
  exists r,
    classify categories texts scalars interests = Returns r /\
    forall t, t ∈ otros r ->
      t ∈ texts /\
      (forall k v, k ∈ CATEGORIES -> categories !! k = Some v -> t ∉ v) /\
      (forall k l, classified_data r !! k = Some (VList l) -> AStr t ∉ l) /\
      (t ∉ interests) /\
      (t ∈ scalars -> t = NA).
Proof.
  destruct (classify_closed categories configured texts scalars interests)
    as (r & Hr & Hin & Hout & Hotros).
  exists r. split; [exact Hr|]. intros t Ht.
  rewrite Hotros, list_elem_of_In, filter_In, <- list_elem_of_In in Ht.
  destruct Ht as [Hsent Hseen].
  apply negb_true_iff, bool_decide_eq_false in Hseen.
  rewrite (elem_of_contenido categories configured) in Hseen.
  apply elem_of_sent_to in Hsent as [Ht Hnone].
  split; [done|]. split; [|split; [|split]].
  - intros k v Hk Hv. by apply (first_match_None categories t CATEGORIES Hnone k v).
  - intros k l Hk Hl. apply Hseen. left. eauto.
  - intros Hi. apply Hseen. right. by right.
  - intros Hs. destruct (decide (t = NA)) as [|Hne]; [done|].
    exfalso. apply Hseen. right. left. done.
Qed.

End ClassifyMore.

Lemma first_match_missing (categories : Classify.vocabularies) (t : pystr)
    (order : list string) (k : string) :
  k ∈ order -> categories !! k = None ->
  (forall k' v, categories !! k' = Some v -> t ∉ v) ->
  Classify.first_match categories t order = Raises KeyError.
Proof.
  intros Hk Hmiss Hno. induction order as [|c order IH]; simpl.
  - by apply elem_of_nil in Hk.
  - destruct (categories !! c) as [v|] eqn:Hc; [|done].
    rewrite bool_decide_false by (by apply (Hno c)).
    apply IH. apply elem_of_cons in Hk as [->|Hk]; [congruence|done].
Qed.

(** X12.  A configuration that lacks one of the seven categories makes
    the classification raise [KeyError] as soon as a collected text
    reaches the missing category, which the first text does when no
    configured vocabulary holds it.  With no collected text nothing is
    looked up: the classification returns, "NA" under each category,
    whatever the configuration holds. *)
Theorem classify_missing_category (categories : Classify.vocabularies)
    (k : string) (t : pystr) (texts scalars interests : list pystr) :
  k ∈ Classify.CATEGORIES -> categories !! k = None ->
  (forall k' v, categories !! k' = Some v -> t ∉ v) ->
  Classify.classify categories (t :: texts) scalars interests = Raises KeyError /\
  exists r,
    Classify.classify categories [] scalars interests = Returns r /\
    Classify.otros r = [] /\
    forall c, c ∈ Classify.CATEGORIES ->
      Classify.classified_data r !! c = Some (VStr NA).
Proof.
  intros Hk Hmiss Hno. split.
  - unfold Classify.classify. cbn [Classify.classify_loop].
    by rewrite (first_match_missing categories t Classify.CATEGORIES k).
  - eexists. split; [reflexivity|]. split; [done|].
    intros c Hc. cbn. rewrite lookup_fmap, classified_init_Some by done. done.
Qed.

(** X12, at the empty configuration. *)
Lemma classify_missing_category_witness :
  Classify.classify ∅ [Examples.Aries] [] [] = Raises KeyError.
Proof.
  apply (classify_missing_category ∅ "horoscopo"%string Examples.Aries [] [] []).
  - left.
  - reflexivity.
  - intros k' v Hv. by rewrite lookup_empty in Hv.
Defined.

(** X10 and X11, at the scenario of the specification. *)
Lemma category_lists_sound_witness :
  exists r,
    Classify.classify Examples.aries_only
      [Examples.Aries; Examples.Le_gusta_correr] [] [] = Returns r /\
    forall k, is_Some (Classify.classified_data r !! k) <-> k ∈ Classify.CATEGORIES.
Proof.
  destruct (category_lists_sound Examples.aries_only aries_only_configured
              [Examples.Aries; Examples.Le_gusta_correr] [] [])
    as (r & Hr & Hkeys & _).
  exists r. split; [exact Hr|exact Hkeys].
Defined.

Lemma otros_holds_only_unclassified_witness :
  exists r,
    Classify.classify Examples.aries_only
      [Examples.Aries; Examples.Le_gusta_correr] [] [] = Returns r /\
    forall t, t ∈ Classify.otros r ->
      t ∈ [Examples.Aries; Examples.Le_gusta_correr].
Proof.
  destruct (otros_holds_only_unclassified Examples.aries_only
              aries_only_configured
              [Examples.Aries; Examples.Le_gusta_correr] [] [])
    as (r & Hr & Hotros).
  exists r. split; [exact Hr|]. intros t Ht. by destruct (Hotros t Ht).
Defined.

(* ===================================================================== *)
(** * Further facts about the session driver *)
(* ===================================================================== *)

Section DriverMore.

Import Driver Session.

Variable cfg : parameters.







Lemma save_if_needed_stats s :
  stats (_save_if_needed cfg s) = stats s.
Proof.
  unfold _save_if_needed.
  destruct (save_interval cfg <=? _); [|done].
  by destruct (Saver.save_profiles _ _) as [[[|] f] r].
Qed.

Lemma occurrences_snoc {A} `{EqDecision A} (x y : A) (l : list A) :
  occurrences x (l ++ [y])
  = (occurrences x l + if bool_decide (y = x) then 1 else 0)%nat.
Proof.
  rewrite occurrences_app. f_equal. unfold occurrences. simpl.
  by case_bool_decide.
Qed.

Lemma swipe_and_save_counted w s :
  counted s -> counted (swipe_and_save cfg w s).
Proof.
  intros (Hp & Hl & Hn & Hb). unfold counted, swipe_and_save.
  rewrite save_if_needed_stats.
  rewrite (proj1 (save_if_needed_same cfg _)), (proj2 (save_if_needed_same cfg _)).
  unfold _perform_swipe_action.
  destruct (key_ok w), (Qltb (random (draw w)) (like_probability cfg)); simpl;
    rewrite !occurrences_snoc; simpl; repeat split; lia.
Qed.

Lemma run_iteration_counted w s :
  counted s -> counted (run_iteration cfg w s).1.
Proof.
  intros Hs. unfold run_iteration.
  destruct (Qltb _ _).
  { destruct Hs as (Hp & Hl & Hn & Hb).
    unfold navigate_to_recommendations, counted.
    destruct (navigation_ok w); simpl; rewrite !occurrences_snoc; simpl;
      repeat split; lia. }
  assert (Hfail : counted (with_stats add_error (log Extraction s))).
  { destruct Hs as (Hp & Hl & Hn & Hb). unfold counted. simpl.
    rewrite !occurrences_snoc. simpl. repeat split; lia. }
  destruct (extraction w) as [p|]; [|by apply swipe_and_save_counted].
  case_bool_decide; [by apply swipe_and_save_counted|].
  destruct Hs as (Hp & Hl & Hn & Hb).
  destruct (_validate_profile p) as [[|]|e].
  - apply swipe_and_save_counted. unfold counted. simpl.
    rewrite !occurrences_snoc, length_app. simpl. repeat split; lia.
  - unfold navigate_to_recommendations, counted. simpl.
    rewrite !occurrences_snoc. simpl. repeat split; lia.
  - unfold counted. simpl. rewrite !occurrences_snoc. simpl. repeat split; lia.
Qed.

Lemma run_loop_counted (world : nat -> turn) turns s :
  counted s -> counted (run_loop cfg world turns s).1.
Proof.
  revert s. induction turns as [|i turns IH]; intros s Hs; simpl; [done|].
  pose proof (run_iteration_counted (world i) s Hs) as Hstep.
  destruct (run_iteration cfg (world i) s) as [s' [e|]]; [done|].
  by apply IH.
Qed.

Lemma run_iteration_extracts_once w s :
  exists evs,
    trace (run_iteration cfg w s).1 = trace s ++ evs /\
    (occurrences Extraction evs <= 1)%nat.
Proof.
  unfold run_iteration.
  assert (Hend : forall x, trace x = trace s ++ [Extraction] ->
            exists evs, trace (swipe_and_save cfg w x) = trace s ++ evs /\
                        (occurrences Extraction evs <= 1)%nat).
  { intros x Hx. unfold swipe_and_save.
    rewrite (proj2 (save_if_needed_same cfg _)). unfold _perform_swipe_action.
    destruct (key_ok w), (Qltb (random (draw w)) (like_probability cfg)); simpl;
      rewrite Hx, <- app_assoc; eexists; (split; [reflexivity|]);
      vm_compute; lia. }
  destruct (Qltb _ _).
  { exists [Recommendations]. unfold navigate_to_recommendations.
    destruct (navigation_ok w); simpl; (split; [done|vm_compute; lia]). }
  destruct (extraction w) as [p|]; [|by apply Hend].
  case_bool_decide; [by apply Hend|].
  destruct (_validate_profile p) as [[|]|e].
  - by apply Hend.
  - exists [Extraction; Recommendations]. simpl. rewrite <- app_assoc.
    split; [done|vm_compute; lia].
  - exists [Extraction]. split; [done|vm_compute; lia].
Qed.

Lemma run_loop_extracts (world : nat -> turn) turns s :
  exists evs,
    trace (run_loop cfg world turns s).1 = trace s ++ evs /\
    (occurrences Extraction evs <= length turns)%nat.
Proof.
  revert s. induction turns as [|i turns IH]; intros s; simpl.
  - exists []. rewrite app_nil_r. split; [done|]. vm_compute. lia.
  - destruct (run_iteration_extracts_once (world i) s) as (evs & Ht & Hle).
    destruct (run_iteration cfg (world i) s) as [s' [e|]]; simpl in *.
    + exists evs. split; [done|lia].
    + destruct (IH s') as (evs' & Ht' & Hle').
      exists (evs ++ evs'). rewrite Ht', Ht, <- app_assoc.
      split; [done|]. rewrite occurrences_app. lia.
Qed.

(** X14.  At the end of a session the counters agree with what was
    done: [profiles_scraped] is the size of the buffer, [likes] the
    number of accept keys sent and [nopes] the number of reject keys
    sent; and the pipeline was called at most [num_profiles] times, at
    least once per buffered profile, so no more than [num_profiles]
    profiles are buffered. *)
Theorem session_counters_agree (world : nat -> turn) (now : Q)
    (output : Saver.store) :
  let final := run cfg world (init now output) in
  profiles_scraped (stats final) = length (profiles_buffer final) /\
  likes (stats final) = occurrences SwipeRight (trace final) /\
  nopes (stats final) = occurrences SwipeLeft (trace final) /\
  (length (profiles_buffer final) <= occurrences Extraction (trace final))%nat /\
  (occurrences Extraction (trace final) <= Z.to_nat (num_profiles cfg))%nat.
Proof.
  cbv zeta.
  assert (Hinit : counted (init now output)).
  { unfold counted. simpl. repeat split; lia. }
  pose proof (run_loop_counted world (seq 1 (Z.to_nat (num_profiles cfg)))
                _ Hinit) as (Hp & Hl & Hn & Hb).
  destruct (run_loop_extracts world (seq 1 (Z.to_nat (num_profiles cfg)))
              (init now output)) as (evs & Ht & Hle).
  rewrite length_seq in Hle. simpl in Ht.
  unfold run.
  assert (Hstats : forall s, stats (_save_remaining_profiles s) = stats s).
  { intros s. unfold _save_remaining_profiles.
    destruct (drop _ _); [done|].
    by destruct (Saver.save_profiles _ _) as [[[|] f] r]. }
  rewrite Hstats, (proj1 (save_remaining_same _)), (proj2 (save_remaining_same _)).
  repeat split; try done. by rewrite Ht.
Qed.

End DriverMore.


(* ===================================================================== *)
(** * Facts about the configuration *)
(* ===================================================================== *)

Section ConfigFacts.

Import Config.

Lemma get_get_keys config key_path default :
  get config key_path default = get_keys config (keys_of key_path) default.
Proof. unfold get, keys_of, get_keys. by destruct (split_dots key_path). Qed.

Lemma update_store config key_path value :
  update config key_path value
  = store_path config (split_dots key_path).1 (split_dots key_path).2 value.
Proof. unfold update. by destruct (split_dots key_path). Qed.

Lemma keys_of_split key_path :
  keys_of key_path = (split_dots key_path).1 :: (split_dots key_path).2.
Proof. unfold keys_of. by destruct (split_dots key_path). Qed.

(** What was stored along a path is what the walk along it finds. *)
Lemma store_path_lookup rest target key value target' :
  store_path target key rest value = Returns target' ->
  lookup_path target' (key :: rest) = Returns value.
Proof.
  revert target key target'.
  induction rest as [|next rest IH]; intros target key target' H;
    destruct target as [| | | | | | |entries]; try discriminate; simpl in H.
  - injection H as <-. simpl. by rewrite lookup_insert_eq.
  - destruct (store_path _ next rest value) as [child|e] eqn:Hc; [|discriminate].
    injection H as <-. cbn [lookup_path]. rewrite lookup_insert_eq.
    exact (IH _ next _ Hc).
Qed.

(** A store leaves the walk along any path that parts ways with its
    own as it was. *)
Lemma store_path_frame rest target key value target' keys default :
  store_path target key rest value = Returns target' ->
  diverge (key :: rest) keys = true ->
  get_keys target' keys default = get_keys target keys default.
Proof.
  revert target key target' keys.
  induction rest as [|next rest IH]; intros target key target' keys H Hd;
    destruct target as [| | | | | | |entries]; try discriminate;
    destruct keys as [|k2 keys2]; try discriminate; simpl in H, Hd.
  - injection H as <-. case_bool_decide as Hk; [by destruct keys2|].
    unfold get_keys. simpl. by rewrite lookup_insert_ne.
  - destruct (store_path _ next rest value) as [child|e] eqn:Hc; [|discriminate].
    injection H as <-. unfold get_keys. cbn [lookup_path].
    case_bool_decide as Hk.
    + subst k2. rewrite lookup_insert_eq.
      pose proof (IH _ next child keys2 Hc Hd) as Hsame. unfold get_keys in Hsame.
      destruct (entries !! key) as [old|]; simpl in *; [exact Hsame|].
      rewrite Hsame. destruct keys2 as [|k3 keys3]; [discriminate|].
      simpl. by rewrite lookup_empty.
    + by rewrite lookup_insert_ne.
Qed.

(** An assignment that succeeds is the store along the same path. *)
Lemma assign_path_store rest target key value target' :
  assign_path target key rest value = Returns target' ->
  store_path target key rest value = Returns target'.
Proof.
  revert target key target'.
  induction rest as [|next rest IH]; intros target key target' H;
    destruct target as [| | | | | | |entries]; try discriminate; simpl in *;
    [done|].
  destruct (entries !! key) as [child|]; [|discriminate]. simpl.
  destruct (assign_path child next rest value) as [child'|e] eqn:Hc; [|discriminate].
  by rewrite (IH _ _ _ Hc).
Qed.

(** Along a path that can be walked the assignment succeeds. *)
Lemma assign_path_after_lookup rest target key value old :
  lookup_path target (key :: rest) = Returns old ->
  exists target', assign_path target key rest value = Returns target'.
Proof.
  revert target key.
  induction rest as [|next rest IH]; intros target key H;
    destruct target as [| | | | | | |entries]; try discriminate; simpl in *;
    [eauto|].
  destruct (entries !! key) as [child|]; [|discriminate].
  destruct (IH child next H) as (child' & ->). simpl. eauto.
Qed.

Lemma update_get_same config config' key_path value default :
  update config key_path value = Returns config' ->
  get config' key_path default = value.
Proof.
  intros H. rewrite update_store in H.
  rewrite get_get_keys, keys_of_split. unfold get_keys.
  by rewrite (store_path_lookup _ _ _ _ _ H).
Qed.

Lemma update_get_other config config' key_path value other default :
  update config key_path value = Returns config' ->
  diverge (keys_of key_path) (keys_of other) = true ->
  get config' other default = get config other default.
Proof.
  intros H Hd. rewrite update_store in H. rewrite !get_get_keys.
  rewrite keys_of_split in Hd.
  by apply (store_path_frame _ _ _ _ _ _ _ H).
Qed.

(** X15.  [update] and [get] round-trip: after an [update] that
    returns, [get] of the same dotted path gives the value written,
    whatever default is passed; and [get] of a path that parts ways
    with it gives what it gave before. *)
Theorem update_then_get (config config' : json) (key_path : string)
    (value : json) :
  update config key_path value = Returns config' ->
  (forall default, get config' key_path default = value) /\
  (forall other default,
     diverge (keys_of key_path) (keys_of other) = true ->
     get config' other default = get config other default).
Proof.
  intros H. split.
  - intros default. by apply (update_get_same config).
  - intros other default Hd. by apply (update_get_other config _ key_path value).
Qed.

Lemma update_then_get_witness :
  (forall default,
     get Examples.with_fifty "scraping.num_profiles" default = JInt 50) /\
  (forall other default,
     diverge (keys_of "scraping.num_profiles") (keys_of other) = true ->
     get Examples.with_fifty other default = get default_config other default).
Proof.
  apply (update_then_get default_config Examples.with_fifty
           "scraping.num_profiles" (JInt 50)).
  vm_compute. reflexivity.
Defined.

(** After [_validate_numeric] the setting read with a default in the
    range is in the range: the value was, or was replaced by a default
    that is, or could not be reached and then [get] gives its own. *)
Lemma validate_numeric_in_range config key_path lo hi dv d :
  lookup_path default_config (keys_of key_path) = Returns dv ->
  in_range lo hi dv = true ->
  in_range lo hi d = true ->
  in_range lo hi (get (_validate_numeric config key_path lo hi) key_path d) = true.
Proof.
  intros Hdv Hin Hd. rewrite get_get_keys. unfold _validate_numeric.
  rewrite keys_of_split in *.
  destruct (split_dots key_path) as [key rest]. cbn [fst snd] in *.
  destruct (lookup_path config (key :: rest)) as [v|e] eqn:Hv.
  - destruct (in_range lo hi v) eqn:Hvin.
    + unfold get_keys. by rewrite Hv.
    + rewrite Hdv.
      destruct (assign_path_after_lookup rest config key dv v Hv) as (c' & Hc').
      rewrite Hc'. unfold get_keys.
      by rewrite (store_path_lookup _ _ _ _ _ (assign_path_store _ _ _ _ _ Hc')).
  - unfold get_keys. by rewrite Hv.
Qed.

(** [_validate_numeric] leaves every other setting alone. *)
Lemma validate_numeric_frame config key_path lo hi other d :
  diverge (keys_of key_path) (keys_of other) = true ->
  get (_validate_numeric config key_path lo hi) other d = get config other d.
Proof.
  intros Hd. rewrite !get_get_keys. unfold _validate_numeric.
  rewrite keys_of_split in Hd.
  destruct (split_dots key_path) as [key rest]. cbn [fst snd] in *.
  destruct (lookup_path config (key :: rest)) as [v|e]; [|done].
  destruct (in_range lo hi v); [done|].
  destruct (lookup_path default_config (key :: rest)) as [dv|e]; [|done].
  destruct (assign_path config key rest dv) as [c'|e] eqn:Hc'; [|done].
  by apply (store_path_frame _ _ _ _ _ _ _ (assign_path_store _ _ _ _ _ Hc')).
Qed.

(** X16.  A configuration that [_validate_config] accepts has its four
    numeric settings in their ranges, as [get] reads them with the
    defaults of the code: a number of profiles from 1 to 1000, a like
    probability and a verification threshold from 0 to 1, a save
    interval from 1 to 100. *)
Theorem validated_settings_in_range (creatable : pystr -> bool)
    (config config' : json) :
  _validate_config creatable config = Returns config' ->
  in_range 1 1000 (get config' "scraping.num_profiles" (JInt 10)) = true /\
  in_range 0 1 (get config' "scraping.like_probability"
                  (JFloat (thousandths 151))) = true /\
  in_range 1 100 (get config' "scraping.save_interval" (JInt 10)) = true /\
  in_range 0 1 (get config' "ocr.verification_threshold"
                  (JFloat (thousandths 750))) = true.
Proof.
  intros H. destruct config as [| | | | | | |entries]; try discriminate.
  unfold _validate_config in H.
  destruct (fill_sections entries required_sections) as [filled|e];
    [|discriminate].
  cbn [mbind outcome_bind] in H.
  destruct (_ensure_directories creatable _); [|discriminate].
  injection H as <-. unfold validate_numerics.
  repeat split.
  - rewrite !validate_numeric_frame by reflexivity.
    by apply (validate_numeric_in_range _ _ _ _ (JInt 10)).
  - rewrite !validate_numeric_frame by reflexivity.
    by apply (validate_numeric_in_range _ _ _ _ (JFloat (thousandths 151))).
  - rewrite !validate_numeric_frame by reflexivity.
    by apply (validate_numeric_in_range _ _ _ _ (JInt 10)).
  - by apply (validate_numeric_in_range _ _ _ _ (JFloat (thousandths 750))).
Qed.

Lemma validated_settings_in_range_witness :
  in_range 1 1000 (get (validate_numerics default_config)
                     "scraping.num_profiles" (JInt 10)) = true /\
  in_range 0 1 (get (validate_numerics default_config)
                  "scraping.like_probability"
                  (JFloat (thousandths 151))) = true /\
  in_range 1 100 (get (validate_numerics default_config)
                    "scraping.save_interval" (JInt 10)) = true /\
  in_range 0 1 (get (validate_numerics default_config)
                  "ocr.verification_threshold"
                  (JFloat (thousandths 750))) = true.
Proof.
  apply (validated_settings_in_range (fun _ => true) (JDict ∅)).
  vm_compute. reflexivity.
Defined.

(** The part of a dotted path before its first dot has no dot. *)
Lemma split_dots_first (s : string) : has_dot (split_dots s).1 = false.
Proof.
  unfold has_dot. induction s as [|c s IH]; [done|].
  simpl. destruct (split_dots s) as [first others]. simpl in IH.
  destruct (Ascii.eqb c ".") eqn:Hc; [done|].
  cbn [fst]. simpl. destruct (split_dots first) as [first' others'].
  rewrite Hc. by destruct others'.
Qed.

Lemma store_path_top rest entries key value target' :
  store_path (JDict entries) key rest value = Returns target' ->
  exists child, target' = JDict (<[key := child]> entries).
Proof.
  destruct rest as [|next rest]; simpl; [intros [= <-]; eauto|].
  destruct (store_path _ next rest value) as [child|e]; [|discriminate].
  intros [= <-]. eauto.
Qed.

Lemma validate_numeric_dom entries key_path lo hi :
  exists entries',
    _validate_numeric (JDict entries) key_path lo hi = JDict entries' /\
    dom entries' = dom entries.
Proof.
  unfold _validate_numeric. destruct (split_dots key_path) as [key rest].
  destruct (lookup_path (JDict entries) (key :: rest)) as [v|e] eqn:Hv; [|eauto].
  destruct (in_range lo hi v); [eauto|].
  destruct (lookup_path default_config (key :: rest)) as [dv|e]; [|eauto].
  destruct (assign_path (JDict entries) key rest dv) as [c'|e] eqn:Hc'; [|eauto].
  destruct (store_path_top _ _ _ _ _ (assign_path_store _ _ _ _ _ Hc'))
    as (child & ->).
  eexists. split; [done|]. rewrite dom_insert_L.
  simpl in Hv. destruct (entries !! key) as [old|] eqn:Hkey; [|discriminate].
  apply subseteq_union_1_L, singleton_subseteq_l, elem_of_dom. eauto.
Qed.

Lemma validate_numerics_dom entries :
  exists entries',
    validate_numerics (JDict entries) = JDict entries' /\
    dom entries' = dom entries.
Proof.
  unfold validate_numerics.
  destruct (validate_numeric_dom entries "scraping.num_profiles" 1 1000)
    as (e1 & -> & <-).
  destruct (validate_numeric_dom e1 "scraping.like_probability" 0 1)
    as (e2 & -> & <-).
  destruct (validate_numeric_dom e2 "scraping.save_interval" 1 100)
    as (e3 & -> & <-).
  apply validate_numeric_dom.
Qed.

Lemma fill_sections_raises (e : exn) (sections : list string) :
  foldl (fun acc section => entries ← acc; fill_section entries section)
        (Raises e) sections = Raises e.
Proof. by induction sections. Qed.

Lemma fill_sections_dom (sections : list string) (entries filled : gmap string json) :
  fill_sections entries sections = Returns filled ->
  dom filled = dom entries ∪ list_to_set sections.
Proof.
  unfold fill_sections. revert entries.
  induction sections as [|section sections IH]; intros entries; simpl.
  - intros [= <-]. by rewrite (right_id_L ∅ (∪)).
  - destruct (fill_section entries section) as [entries1|e] eqn:Hs.
    + intros H. rewrite (IH _ H). unfold fill_section in Hs.
      destruct (entries !! section) as [old|] eqn:Hold.
      * injection Hs as <-.
        assert (section ∈ dom entries) by (apply elem_of_dom; eauto).
        apply set_eq. intros x. rewrite !elem_of_union, elem_of_singleton.
        split; [tauto|]. intros [?|[->|?]]; tauto.
      * destruct (lookup_path default_config [section]); [|discriminate].
        injection Hs as <-. rewrite dom_insert_L.
        apply set_eq. intros x. rewrite !elem_of_union, elem_of_singleton. tauto.
    + rewrite fill_sections_raises. discriminate.
Qed.

(** What passes [_validate_config]: a dictionary, with the sections
    added and the directories made. *)
Lemma validated_shape (creatable : pystr -> bool) (config config' : json) :
  _validate_config creatable config = Returns config' ->
  exists entries entries',
    config = JDict entries /\ config' = JDict entries' /\
    dom entries' = dom entries ∪ list_to_set required_sections /\
    _ensure_directories creatable config' = Returns tt.
Proof.
  intros H. destruct config as [| | | | | | |entries]; try discriminate.
  unfold _validate_config in H.
  destruct (fill_sections entries required_sections) as [filled|e] eqn:Hfill;
    [|discriminate].
  cbn [mbind outcome_bind] in H.
  destruct (_ensure_directories creatable _) as [[]|e] eqn:Hdirs; [|discriminate].
  injection H as <-.
  destruct (validate_numerics_dom filled) as (entries' & Hv & Hdom).
  exists entries, entries'. split; [done|]. split; [done|].
  split; [by rewrite Hdom; apply fill_sections_dom|done].
Qed.

(** X17.  Only a dictionary passes [_validate_config]; the result has
    the keys of the document and the six required sections, no other;
    and its three directory settings are strings that name directories
    that could be made. *)
Theorem validated_sections_and_directories (creatable : pystr -> bool)
    (config config' : json) :
  _validate_config creatable config = Returns config' ->
  exists entries entries',
    config = JDict entries /\ config' = JDict entries' /\
    dom entries' = dom entries ∪ list_to_set required_sections /\
    (forall key_path,
       key_path ∈ ["output.output_directory"; "paths.screenshots_dir";
                   "paths.templates_dir"]%string ->
       exists directory,
         get config' key_path JNull = JStr directory /\
         creatable directory = true).
Proof.
  intros H.
  destruct (validated_shape creatable config config' H)
    as (entries & entries' & -> & -> & Hdom & Hdirs).
  exists entries, entries'. split; [done|]. split; [done|].
  split; [done|]. unfold _ensure_directories in Hdirs.
  destruct (lookup_path (JDict entries') ["output"; "output_directory"]%string)
    as [d1|] eqn:H1; [|discriminate].
  destruct (lookup_path (JDict entries') ["paths"; "screenshots_dir"]%string)
    as [d2|] eqn:H2; [|discriminate].
  destruct (lookup_path (JDict entries') ["paths"; "templates_dir"]%string)
    as [d3|] eqn:H3; [|discriminate].
  cbn [mbind outcome_bind] in Hdirs.
  unfold makedirs in Hdirs.
  destruct d1 as [| | | | |s1| |]; try discriminate.
  destruct (creatable s1) eqn:Hc1; [|discriminate].
  destruct d2 as [| | | | |s2| |]; try discriminate.
  destruct (creatable s2) eqn:Hc2; [|discriminate].
  destruct d3 as [| | | | |s3| |]; try discriminate.
  destruct (creatable s3) eqn:Hc3; [|discriminate].
  intros key_path Hin.
  apply elem_of_cons in Hin as [->|Hin]; [exists s1; split; [|done]|].
  { rewrite get_get_keys. unfold get_keys.
    change (keys_of "output.output_directory")
      with ["output"; "output_directory"]%string. by rewrite H1. }
  apply elem_of_cons in Hin as [->|Hin]; [exists s2; split; [|done]|].
  { rewrite get_get_keys. unfold get_keys.
    change (keys_of "paths.screenshots_dir")
      with ["paths"; "screenshots_dir"]%string. by rewrite H2. }
  apply list_elem_of_singleton in Hin as ->. exists s3. split; [|done].
  rewrite get_get_keys. unfold get_keys.
  change (keys_of "paths.templates_dir")
    with ["paths"; "templates_dir"]%string. by rewrite H3.
Qed.

Lemma validated_sections_and_directories_witness :
  exists entries entries',
    JDict ∅ = JDict entries /\
    validate_numerics default_config = JDict entries' /\
    dom entries' = dom entries ∪ list_to_set required_sections /\
    (forall key_path,
       key_path ∈ ["output.output_directory"; "paths.screenshots_dir";
                   "paths.templates_dir"]%string ->
       exists directory,
         get (validate_numerics default_config) key_path JNull = JStr directory /\
         (fun _ : pystr => true) directory = true).
Proof.
  apply (validated_sections_and_directories (fun _ => true) (JDict ∅)).
  vm_compute. reflexivity.
Defined.

End ConfigFacts.

(* ===================================================================== *)
(** * Facts about the command-line overrides *)
(* ===================================================================== *)

Section CliFacts.

Import Config Cli.

Lemma and_then_applied (r : applied) (k : json -> applied) (config' : json) :
  and_then r k = Applied config' ->
  exists config1, r = Applied config1 /\ k config1 = Applied config'.
Proof. destruct r; try discriminate. simpl. eauto. Qed.

Lemma override_update config key_path value config' :
  override config key_path value = Applied config' ->
  update config key_path value = Returns config'.
Proof.
  unfold override. destruct (update config key_path value); [|discriminate].
  by intros [= <-].
Qed.

Lemma override_same config key_path value config' default :
  override config key_path value = Applied config' ->
  get config' key_path default = value.
Proof.
  intros H. by apply (update_get_same config), override_update.
Qed.

Lemma override_other config key_path value config' other default :
  override config key_path value = Applied config' ->
  diverge (keys_of key_path) (keys_of other) = true ->
  get config' other default = get config other default.
Proof.
  intros H Hd.
  by apply (update_get_other config _ key_path value); [apply override_update|].
Qed.

Lemma override_dot_free config key_path value config' :
  override config key_path value = Applied config' ->
  dot_free config -> dot_free config'.
Proof.
  intros H%override_update Hfree. rewrite update_store in H.
  destruct config as [| | | | | | |entries]; try done.
  destruct (store_path_top _ _ _ _ _ H) as (child & ->).
  intros key Hdot. rewrite lookup_insert_ne; [by apply Hfree|].
  intros <-. by rewrite split_dots_first in Hdot.
Qed.

(** One stage of [apply_cli_overrides] is split into its cases. *)
Ltac stage H :=
  repeat match type of H with
         | context [match ?o with _ => _ end] => destruct o eqn:?
         end.

(** The seven stages of [apply_cli_overrides], one after the other. *)
Ltac stages H :=
  unfold apply_cli_overrides in H;
  apply and_then_applied in H as (?config1 & ?H1 & H);
  apply and_then_applied in H as (?config2 & ?H2 & H);
  apply and_then_applied in H as (?config3 & ?H3 & H);
  apply and_then_applied in H as (?config4 & ?H4 & H);
  apply and_then_applied in H as (?config5 & ?H5 & H);
  apply and_then_applied in H as (?config6 & ?H6 & H).

(** A stage that writes elsewhere keeps a setting. *)
Ltac kept H :=
  stage H;
  first [ discriminate H
        | injection H as <-; reflexivity
        | apply (override_other _ _ _ _ _ _ H); reflexivity ].

(** A stage that writes the setting. *)
Ltac written H :=
  stage H;
  first [ discriminate H
        | injection H as <-; reflexivity
        | apply (override_same _ _ _ _ _ H) ].

(** X18.  When [apply_cli_overrides] returns, [ConfigManager.get]
    reads each of the seven settings as the command line gave it, and
    as it was where the command line gave none; a number of profiles
    and a save interval given are positive, a like rate given is a
    number from 0 to 1. *)
Theorem cli_overrides_applied (config config' : json) (args : arguments) :
  apply_cli_overrides config args = Applied config' ->
  (forall d, get config' "scraping.num_profiles" d
             = match profiles args with
               | Some n => JInt n
               | None => get config "scraping.num_profiles" d
               end) /\
  (forall d, get config' "scraping.like_probability" d
             = match like_rate args with
               | Some f => json_of_float f
               | None => get config "scraping.like_probability" d
               end) /\
  (forall d, get config' "scraping.save_interval" d
             = match save_interval args with
               | Some n => JInt n
               | None => get config "scraping.save_interval" d
               end) /\
  (forall d, get config' "output.filename" d
             = match given (output args) with
               | Some name => JStr name
               | None => get config "output.filename" d
               end) /\
  (forall d, get config' "output.output_directory" d
             = match given (output_dir args) with
               | Some directory => JStr directory
               | None => get config "output.output_directory" d
               end) /\
  (forall d, get config' "browser.headless" d
             = if headless args then JBool true
               else get config "browser.headless" d) /\
  (forall d, get config' "output.save_screenshots" d
             = if no_screenshots args then JBool false
               else get config "output.save_screenshots" d) /\
  (forall n, profiles args = Some n -> 0 < n) /\
  (forall f, like_rate args = Some f -> rate_ok f = true) /\
  (forall n, save_interval args = Some n -> 0 < n).
Proof.
  intros H. stages H.
  repeat split.
  - intros d.
    transitivity (get config6 "scraping.num_profiles" d); [kept H|].
    transitivity (get config5 "scraping.num_profiles" d); [kept H6|].
    transitivity (get config4 "scraping.num_profiles" d); [kept H5|].
    transitivity (get config3 "scraping.num_profiles" d); [kept H4|].
    transitivity (get config2 "scraping.num_profiles" d); [kept H3|].
    transitivity (get config1 "scraping.num_profiles" d); [kept H2|].
    written H1.
  - intros d.
    transitivity (get config6 "scraping.like_probability" d); [kept H|].
    transitivity (get config5 "scraping.like_probability" d); [kept H6|].
    transitivity (get config4 "scraping.like_probability" d); [kept H5|].
    transitivity (get config3 "scraping.like_probability" d); [kept H4|].
    transitivity (get config2 "scraping.like_probability" d); [kept H3|].
    assert (get config1 "scraping.like_probability" d = get config "scraping.like_probability" d) as <-
      by kept H1.
    written H2.
  - intros d.
    transitivity (get config6 "scraping.save_interval" d); [kept H|].
    transitivity (get config5 "scraping.save_interval" d); [kept H6|].
    transitivity (get config4 "scraping.save_interval" d); [kept H5|].
    transitivity (get config3 "scraping.save_interval" d); [kept H4|].
    assert (get config1 "scraping.save_interval" d = get config "scraping.save_interval" d) as <-
      by kept H1.
    assert (get config2 "scraping.save_interval" d = get config1 "scraping.save_interval" d) as <-
      by kept H2.
    written H3.
  - intros d.
    transitivity (get config6 "output.filename" d); [kept H|].
    transitivity (get config5 "output.filename" d); [kept H6|].
    transitivity (get config4 "output.filename" d); [kept H5|].
    assert (get config1 "output.filename" d = get config "output.filename" d) as <-
      by kept H1.
    assert (get config2 "output.filename" d = get config1 "output.filename" d) as <-
      by kept H2.
    assert (get config3 "output.filename" d = get config2 "output.filename" d) as <-
      by kept H3.
    written H4.
  - intros d.
    transitivity (get config6 "output.output_directory" d); [kept H|].
    transitivity (get config5 "output.output_directory" d); [kept H6|].
    assert (get config1 "output.output_directory" d = get config "output.output_directory" d) as <-
      by kept H1.
    assert (get config2 "output.output_directory" d = get config1 "output.output_directory" d) as <-
      by kept H2.
    assert (get config3 "output.output_directory" d = get config2 "output.output_directory" d) as <-
      by kept H3.
    assert (get config4 "output.output_directory" d = get config3 "output.output_directory" d) as <-
      by kept H4.
    written H5.
  - intros d.
    transitivity (get config6 "browser.headless" d); [kept H|].
    assert (get config1 "browser.headless" d = get config "browser.headless" d) as <-
      by kept H1.
    assert (get config2 "browser.headless" d = get config1 "browser.headless" d) as <-
      by kept H2.
    assert (get config3 "browser.headless" d = get config2 "browser.headless" d) as <-
      by kept H3.
    assert (get config4 "browser.headless" d = get config3 "browser.headless" d) as <-
      by kept H4.
    assert (get config5 "browser.headless" d = get config4 "browser.headless" d) as <-
      by kept H5.
    written H6.
  - intros d.
    assert (get config1 "output.save_screenshots" d = get config "output.save_screenshots" d) as <-
      by kept H1.
    assert (get config2 "output.save_screenshots" d = get config1 "output.save_screenshots" d) as <-
      by kept H2.
    assert (get config3 "output.save_screenshots" d = get config2 "output.save_screenshots" d) as <-
      by kept H3.
    assert (get config4 "output.save_screenshots" d = get config3 "output.save_screenshots" d) as <-
      by kept H4.
    assert (get config5 "output.save_screenshots" d = get config4 "output.save_screenshots" d) as <-
      by kept H5.
    assert (get config6 "output.save_screenshots" d = get config5 "output.save_screenshots" d) as <-
      by kept H6.
    written H.
  - intros n Hn. rewrite Hn in H1.
    destruct (n <=? 0) eqn:Hle; [discriminate|]. lia.
  - intros f Hf. rewrite Hf in H2. by destruct (rate_ok f).
  - intros n Hn. rewrite Hn in H3.
    destruct (n <=? 0) eqn:Hle; [discriminate|]. lia.
Qed.

Lemma cli_overrides_applied_witness :
  get Examples.overridden "scraping.num_profiles" JNull = JInt 50 /\
  get Examples.overridden "scraping.save_interval" JNull = JInt 10.
Proof.
  destruct (cli_overrides_applied default_config Examples.overridden
              Examples.fifty_headless)
    as (Hprofiles & _ & Hinterval & _); [vm_compute; reflexivity|].
  split; [apply Hprofiles | apply Hinterval].
Defined.

(** A stage keeps the top-level keys without a dot. *)
Ltac free H :=
  stage H;
  first [ discriminate H
        | injection H as <-; assumption
        | apply (override_dot_free _ _ _ _ H); assumption ].

Lemma cli_overrides_dot_free (config config' : json) (args : arguments) :
  apply_cli_overrides config args = Applied config' ->
  dot_free config -> dot_free config'.
Proof.
  intros H Hfree. stages H.
  assert (dot_free config1) by free H1.
  assert (dot_free config2) by free H2.
  assert (dot_free config3) by free H3.
  assert (dot_free config4) by free H4.
  assert (dot_free config5) by free H5.
  assert (dot_free config6) by free H6.
  free H.
Qed.

Lemma validated_dot_free (creatable : pystr -> bool) (config config' : json) :
  _validate_config creatable config = Returns config' ->
  dot_free config -> dot_free config'.
Proof.
  intros H Hfree.
  destruct (validated_shape creatable config config' H)
    as (entries & entries' & -> & -> & Hdom & _).
  intros key Hdot. apply not_elem_of_dom. rewrite Hdom.
  intros [Hin|Hin]%elem_of_union.
  - apply not_elem_of_dom in Hin; [done|]. by apply Hfree.
  - apply elem_of_list_to_set in Hin.
    assert (Forall (fun section => has_dot section = false) required_sections)
      as Hall by (repeat constructor).
    rewrite Forall_forall in Hall. apply Hall in Hin. congruence.
Qed.

(** X19.  The dictionary that [main] hands to [TinderScraper] is read
    with [dict.get] and dotted names: from a document whose top-level
    keys have no dot, validated and with the command line applied,
    every such read gives the default passed to it, so that the
    session runs with 10 profiles, a like probability of 0.151, a save
    interval of 10 and a timeout of 1 minute, whatever the file and
    the command line say. *)
Theorem scraper_reads_constructor_defaults (creatable : pystr -> bool)
    (config config1 config2 : json) (args : arguments) :
  dot_free config ->
  _validate_config creatable config = Returns config1 ->
  apply_cli_overrides config1 args = Applied config2 ->
  exists final,
    config2 = JDict final /\
    (forall key default,
       has_dot key = true -> dict_get final key default = default) /\
    scraping_settings (dict_get final)
    = (JInt 10, JFloat (thousandths 151), JInt 10, JInt 1).
Proof.
  intros Hfree Hvalid Hcli.
  pose proof (cli_overrides_dot_free _ _ _ Hcli
                (validated_dot_free _ _ _ Hvalid Hfree)) as Hfinal.
  destruct config2 as [| | | | | | |final]; try done.
  exists final. split; [done|].
  assert (forall key default,
            has_dot key = true -> dict_get final key default = default)
    as Hread.
  { intros key default Hdot. unfold dict_get. by rewrite (Hfinal key Hdot). }
  split; [exact Hread|].
  unfold scraping_settings. by rewrite !Hread.
Qed.

Lemma scraper_reads_constructor_defaults_witness :
  exists final,
    Examples.overridden = JDict final /\
    (forall key default,
       has_dot key = true -> dict_get final key default = default) /\
    scraping_settings (dict_get final)
    = (JInt 10, JFloat (thousandths 151), JInt 10, JInt 1).
Proof.
  apply (scraper_reads_constructor_defaults (fun _ => true) (JDict ∅)
           (validate_numerics default_config) Examples.overridden
           Examples.fifty_headless).
  - intros key _. apply lookup_empty.
  - vm_compute. reflexivity.
  - vm_compute. reflexivity.
Defined.

Lemma and_then_exit (r : applied) (k : json -> applied) (code : Z) :
  and_then r k = Exit code ->
  r = Exit code \/ exists config1, r = Applied config1 /\ k config1 = Exit code.
Proof. destruct r; try discriminate; simpl; eauto. Qed.

Lemma override_no_exit config key_path value code :
  override config key_path value <> Exit code.
Proof. unfold override. by destruct (update config key_path value). Qed.

(** X20.  [apply_cli_overrides] calls [sys.exit] only with code 1 and
    only for a number of profiles or a save interval that is not
    positive, or a like rate that is not a number from 0 to 1. *)
Theorem cli_exit_only_on_invalid_number (config : json) (args : arguments)
    (code : Z) :
  apply_cli_overrides config args = Exit code ->
  code = 1 /\
  ((exists n, profiles args = Some n /\ n <= 0) \/
   (exists f, like_rate args = Some f /\ rate_ok f = false) \/
   (exists n, save_interval args = Some n /\ n <= 0)).
Proof.
  intros H. unfold apply_cli_overrides in H.
  apply and_then_exit in H as [H|(config1 & _ & H)].
  { destruct (profiles args) as [n|]; [|discriminate].
    destruct (n <=? 0) eqn:Hle; [|by apply override_no_exit in H].
    injection H as <-. split; [done|]. left. exists n. split; [done|lia]. }
  apply and_then_exit in H as [H|(config2 & _ & H)].
  { destruct (like_rate args) as [f|]; [|discriminate].
    destruct (rate_ok f) eqn:Hok; [by apply override_no_exit in H|].
    injection H as <-. split; [done|]. right. left. by exists f. }
  apply and_then_exit in H as [H|(config3 & _ & H)].
  { destruct (save_interval args) as [n|]; [|discriminate].
    destruct (n <=? 0) eqn:Hle; [|by apply override_no_exit in H].
    injection H as <-. split; [done|]. right. right. exists n.
    split; [done|lia]. }
  apply and_then_exit in H as [H|(config4 & _ & H)].
  { destruct (given (output args)); [by apply override_no_exit in H|discriminate]. }
  apply and_then_exit in H as [H|(config5 & _ & H)].
  { destruct (given (output_dir args));
      [by apply override_no_exit in H|discriminate]. }
  apply and_then_exit in H as [H|(config6 & _ & H)].
  { destruct (headless args); [by apply override_no_exit in H|discriminate]. }
  destruct (no_screenshots args); [by apply override_no_exit in H|discriminate].
Qed.

Lemma cli_exit_only_on_invalid_number_witness :
  1 = 1 /\
  ((exists n, profiles Examples.no_profiles = Some n /\ n <= 0) \/
   (exists f, like_rate Examples.no_profiles = Some f /\ rate_ok f = false) \/
   (exists n, save_interval Examples.no_profiles = Some n /\ n <= 0)).
Proof.
  apply (cli_exit_only_on_invalid_number default_config Examples.no_profiles 1).
  reflexivity.
Defined.

End CliFacts.
